(** * The post editor component ([src/components/editor/index.tsx])

    A shallow embedding of the [Editor] React component: its state
    ([useState], [useRef]), its event handlers and its effects, written as
    functions on an explicit component state.  Calls to collaborators
    (persistence, completion hook, analytics, document commands) are
    recorded in a trace so that statements can speak about what was issued.

    The publish button and the pending flags of the two transitions take
    no part in the properties below and are left out.

    Conventions.
    - A JavaScript string is a [string]; its length and [slice] count its
      characters.
    - A JavaScript array is a reference into a store of slot lists; a slot
      is a string, [undefined], or an empty slot (a hole).
    - A nullable column of the post record is an [option string].
    - Numbers used as indices and positions are integers ([Z]). *)

From Stdlib Require Import ZArith List String Ascii Bool Lia.
From stdpp Require Import gmap strings list.

Local Open Scope Z_scope.

(** ** Strings *)

Module Str.

Fixpoint take (n : nat) (s : string) : string :=
  match n, s with
  | O, _ => EmptyString
  | S _, EmptyString => EmptyString
  | S n', String c s' => String c (take n' s')
  end.

Fixpoint drop (n : nat) (s : string) : string :=
  match n, s with
  | O, _ => s
  | S _, EmptyString => EmptyString
  | S n', String _ s' => drop n' s'
  end.

Definition len (s : string) : Z := Z.of_nat (String.length s).

(** [s.slice(start)] : a negative start counts from the end, and the
    start is clamped to the string. *)
Definition slice (s : string) (start : Z) : string :=
  let from := if start <? 0 then Z.max (len s + start) 0
              else Z.min start (len s) in
  drop (Z.to_nat from) s.

(** [s1] is an initial segment of [s2]. *)
Definition grows (s1 s2 : string) : Prop := exists t, s2 = s1 +:+ t.

Fixpoint concat (l : list string) : string :=
  match l with
  | [] => EmptyString
  | s :: l' => s +:+ concat l'
  end.

(** [`${x}`] for a nullable string. *)
Definition tmpl (x : option string) : string :=
  match x with Some s => s | None => "null" end.

(** Truthiness of a nullable string: neither [null] nor empty. *)
Definition truthy (x : option string) : bool :=
  match x with
  | Some s => negb (String.eqb s "")
  | None => false
  end.

(** [===] on nullable strings. *)
Definition eqb (x y : option string) : bool :=
  match x, y with
  | Some a, Some b => String.eqb a b
  | None, None => true
  | _, _ => false
  end.

End Str.

(** ** Arrays *)

Inductive slot : Type :=
| Hole
| Undefined
| Str (s : string).

Module JsArray.

(** The largest array index is [2^32 - 2]; a write through any other
    number creates a plain property, which is not an element. *)
Definition is_index (i : Z) : bool := (0 <=? i) && (i <? 2 ^ 32 - 1).

(** [[...a]] : iteration reads a hole as [undefined]. *)
Definition spread (a : list slot) : list slot :=
  map (fun x => match x with Hole => Undefined | _ => x end) a.

(** [a[index] = value] on the elements of [a]. *)
Definition set (a : list slot) (index : Z) (value : string) : list slot :=
  if is_index index then
    let i := Z.to_nat index in
    if (i <? length a)%nat then <[i := Str value]> a
    else a ++ repeat Hole (i - length a) ++ [Str value]
  else a.

(** [a.splice(start, deleteCount)] on the elements of [a]. *)
Definition splice (a : list slot) (start deleteCount : Z) : list slot :=
  let len := Z.of_nat (length a) in
  let actualStart := if start <? 0 then Z.max (len + start) 0
                     else Z.min start len in
  let actualDeleteCount := Z.min (Z.max deleteCount 0) (len - actualStart) in
  firstn (Z.to_nat actualStart) a
    ++ skipn (Z.to_nat (actualStart + actualDeleteCount)) a.

End JsArray.

(** ** JSON.stringify on an array of strings *)

Module JSON.

Definition quote : ascii := "034"%char.

Definition hex_digit (n : nat) : ascii :=
  match String.get n "0123456789abcdef" with
  | Some c => c
  | None => "0"%char
  end.

Definition escape_char (c : ascii) : string :=
  let n := nat_of_ascii c in
  if (n =? 8)%nat then "\b"
  else if (n =? 9)%nat then "\t"
  else if (n =? 10)%nat then "\n"
  else if (n =? 12)%nat then "\f"
  else if (n =? 13)%nat then "\r"
  else if (n =? 34)%nat then String "\"%char (String quote EmptyString)
  else if (n =? 92)%nat then "\\"
  else if (n <? 32)%nat then
    "\u00" +:+ String (hex_digit (n / 16)) (String (hex_digit (n mod 16)) EmptyString)
  else String c EmptyString.

Fixpoint escape (s : string) : string :=
  match s with
  | EmptyString => EmptyString
  | String c s' => escape_char c +:+ escape s'
  end.

Definition quote_string (s : string) : string :=
  String quote (escape s +:+ String quote EmptyString).

Definition element (x : slot) : string :=
  match x with
  | Str s => quote_string s
  | Hole | Undefined => "null"
  end.

Fixpoint join (l : list string) : string :=
  match l with
  | [] => EmptyString
  | [s] => s
  | s :: l' => s +:+ "," +:+ join l'
  end.

Definition stringify (a : list slot) : string :=
  "[" +:+ join (map element a) +:+ "]".

End JSON.

(** ** The document engine *)

(** Modelled from the spec: the rich-text document engine is an external
    collaborator, of which the component uses the selection, plain-text
    extraction between offsets, serialized-document extraction, and the
    mutations delete range, insert text, set selection and replace content.
    It is modelled as a flat text with a selection [sel_from .. sel_to],
    positions counting characters from the start; positions outside the
    document are clamped, the serialized form of a flat text is the text,
    and inserting the empty text changes nothing. *)
Record Editor : Type := {
  doc : string;
  sel_from : Z;
  sel_to : Z
}.

Module Doc.

Definition clamp (s : string) (p : Z) : nat :=
  Z.to_nat (Z.max 0 (Z.min p (Str.len s))).

Definition textBetween (ed : Editor) (from to : Z) : string :=
  let a := clamp (doc ed) from in
  let b := clamp (doc ed) to in
  Str.take (b - a) (Str.drop a (doc ed)).

(** A position after a deleted range moves left; one inside it moves to
    the start of the range. *)
Definition map_pos (a b : nat) (p : Z) : Z :=
  if p <=? Z.of_nat a then p
  else if p <=? Z.of_nat b then Z.of_nat a
  else p - (Z.of_nat b - Z.of_nat a).

Definition deleteRange (ed : Editor) (from to : Z) : Editor :=
  let a := clamp (doc ed) from in
  let b := clamp (doc ed) to in
  if (a <? b)%nat then
    {| doc := Str.take a (doc ed) +:+ Str.drop b (doc ed);
       sel_from := map_pos a b (sel_from ed);
       sel_to := map_pos a b (sel_to ed) |}
  else ed.

(** The content replaces the selection and the cursor ends after it. *)
Definition insertContent (ed : Editor) (value : string) : Editor :=
  if String.eqb value "" then ed
  else
    let a := clamp (doc ed) (sel_from ed) in
    let b := clamp (doc ed) (sel_to ed) in
    {| doc := Str.take a (doc ed) +:+ value +:+ Str.drop b (doc ed);
       sel_from := Z.of_nat a + Str.len value;
       sel_to := Z.of_nat a + Str.len value |}.

Definition setTextSelection (ed : Editor) (from to : Z) : Editor :=
  {| doc := doc ed;
     sel_from := Z.of_nat (clamp (doc ed) from);
     sel_to := Z.of_nat (clamp (doc ed) to) |}.

Definition setContent (ed : Editor) (value : string) : Editor :=
  {| doc := value; sel_from := Str.len value; sel_to := Str.len value |}.

Definition getText (ed : Editor) : string := doc ed.

Definition getMarkdown (ed : Editor) : string := doc ed.

(** An empty document with the cursor at its start. *)
Definition empty : Editor := {| doc := ""; sel_from := 0; sel_to := 0 |}.

End Doc.

(** ** The post record and the calls to collaborators *)

Module Post.

(** The columns of the post the component reads or writes. *)
Record t : Type := {
  id : string;
  title : option string;
  description : option string;
  content : option string;
  slides : option string;
  published : bool
}.

Definition with_title (v : option string) (p : t) : t :=
  {| id := id p; title := v; description := description p;
     content := content p; slides := slides p; published := published p |}.

Definition with_description (v : option string) (p : t) : t :=
  {| id := id p; title := title p; description := v;
     content := content p; slides := slides p; published := published p |}.

Definition with_content (v : option string) (p : t) : t :=
  {| id := id p; title := title p; description := description p;
     content := v; slides := slides p; published := published p |}.

Definition with_slides (v : option string) (p : t) : t :=
  {| id := id p; title := title p; description := description p;
     content := content p; slides := v; published := published p |}.

End Post.

(** A command sent to the document engine. *)
Inductive Command : Type :=
| DeleteRange (from to : Z)
| InsertContent (value : string)
| SetTextSelection (from to : Z)
| SetContent (value : string).

(** A call that leaves the component. *)
Inductive Call : Type :=
| UpdatePost (d : Post.t)
| Complete (prompt : string)
| Stop
| Track (name : string)
| ToastError (message : string)
| PreventDefault
| StopPropagation
| Confirm (message : string)
| Cmd (c : Command).

(** ** The component state *)

Definition loc : Type := nat.

(** What the cancel handlers of one render have captured. *)
Record CancelClosure : Type := {
  cc_completion_length : Z;
  cc_title : option string;
  cc_description : option string
}.

Record State : Type := {
  post : Post.t;                      (* the prop *)
  data : Post.t;                      (* useState(post) *)
  hydrated : bool;                    (* useState(false) *)
  slides : loc;                       (* useState: a reference to an array *)
  heap : gmap loc (list slot);        (* the arrays *)
  debouncedData : Post.t;             (* useDebounce(data, 1000) *)
  debouncePending : bool;             (* the debounce timer is running *)
  editor : option Editor;             (* useEditor *)
  completion : string;                (* useCompletion *)
  isLoading : bool;                   (* useCompletion *)
  prev : string;                      (* useRef("") *)
  saveListener : option Post.t;       (* keydown listener of the save effect,
                                         with the data it captured *)
  cancelListener : option CancelClosure; (* keydown and mousedown listeners of
                                         the cancel effect *)
  trace : list Call                   (* calls issued so far, oldest first *)
}.

Section Setters.

Variable st : State.

Definition set_post (v : Post.t) : State :=
  {| post := v; data := data st; hydrated := hydrated st;
     slides := slides st; heap := heap st;
     debouncedData := debouncedData st; debouncePending := debouncePending st;
     editor := editor st; completion := completion st;
     isLoading := isLoading st; prev := prev st;
     saveListener := saveListener st; cancelListener := cancelListener st;
     trace := trace st |}.

(** [setData]: every call makes a new object, which restarts the
    debounce timer. *)
Definition setData (v : Post.t) : State :=
  {| post := post st; data := v; hydrated := hydrated st;
     slides := slides st; heap := heap st;
     debouncedData := debouncedData st; debouncePending := true;
     editor := editor st; completion := completion st;
     isLoading := isLoading st; prev := prev st;
     saveListener := saveListener st; cancelListener := cancelListener st;
     trace := trace st |}.

Definition setHydrated (v : bool) : State :=
  {| post := post st; data := data st; hydrated := v;
     slides := slides st; heap := heap st;
     debouncedData := debouncedData st; debouncePending := debouncePending st;
     editor := editor st; completion := completion st;
     isLoading := isLoading st; prev := prev st;
     saveListener := saveListener st; cancelListener := cancelListener st;
     trace := trace st |}.

Definition setSlides (v : loc) : State :=
  {| post := post st; data := data st; hydrated := hydrated st;
     slides := v; heap := heap st;
     debouncedData := debouncedData st; debouncePending := debouncePending st;
     editor := editor st; completion := completion st;
     isLoading := isLoading st; prev := prev st;
     saveListener := saveListener st; cancelListener := cancelListener st;
     trace := trace st |}.

Definition set_heap (v : gmap loc (list slot)) : State :=
  {| post := post st; data := data st; hydrated := hydrated st;
     slides := slides st; heap := v;
     debouncedData := debouncedData st; debouncePending := debouncePending st;
     editor := editor st; completion := completion st;
     isLoading := isLoading st; prev := prev st;
     saveListener := saveListener st; cancelListener := cancelListener st;
     trace := trace st |}.

Definition set_debounced (v : Post.t) : State :=
  {| post := post st; data := data st; hydrated := hydrated st;
     slides := slides st; heap := heap st;
     debouncedData := v; debouncePending := false;
     editor := editor st; completion := completion st;
     isLoading := isLoading st; prev := prev st;
     saveListener := saveListener st; cancelListener := cancelListener st;
     trace := trace st |}.

Definition set_editor (v : option Editor) : State :=
  {| post := post st; data := data st; hydrated := hydrated st;
     slides := slides st; heap := heap st;
     debouncedData := debouncedData st; debouncePending := debouncePending st;
     editor := v; completion := completion st;
     isLoading := isLoading st; prev := prev st;
     saveListener := saveListener st; cancelListener := cancelListener st;
     trace := trace st |}.

Definition set_completion (c : string) (l : bool) : State :=
  {| post := post st; data := data st; hydrated := hydrated st;
     slides := slides st; heap := heap st;
     debouncedData := debouncedData st; debouncePending := debouncePending st;
     editor := editor st; completion := c;
     isLoading := l; prev := prev st;
     saveListener := saveListener st; cancelListener := cancelListener st;
     trace := trace st |}.

Definition set_prev (v : string) : State :=
  {| post := post st; data := data st; hydrated := hydrated st;
     slides := slides st; heap := heap st;
     debouncedData := debouncedData st; debouncePending := debouncePending st;
     editor := editor st; completion := completion st;
     isLoading := isLoading st; prev := v;
     saveListener := saveListener st; cancelListener := cancelListener st;
     trace := trace st |}.

Definition set_saveListener (v : option Post.t) : State :=
  {| post := post st; data := data st; hydrated := hydrated st;
     slides := slides st; heap := heap st;
     debouncedData := debouncedData st; debouncePending := debouncePending st;
     editor := editor st; completion := completion st;
     isLoading := isLoading st; prev := prev st;
     saveListener := v; cancelListener := cancelListener st;
     trace := trace st |}.

Definition set_cancelListener (v : option CancelClosure) : State :=
  {| post := post st; data := data st; hydrated := hydrated st;
     slides := slides st; heap := heap st;
     debouncedData := debouncedData st; debouncePending := debouncePending st;
     editor := editor st; completion := completion st;
     isLoading := isLoading st; prev := prev st;
     saveListener := saveListener st; cancelListener := v;
     trace := trace st |}.

(** Record a call. *)
Definition call (c : Call) : State :=
  {| post := post st; data := data st; hydrated := hydrated st;
     slides := slides st; heap := heap st;
     debouncedData := debouncedData st; debouncePending := debouncePending st;
     editor := editor st; completion := completion st;
     isLoading := isLoading st; prev := prev st;
     saveListener := saveListener st; cancelListener := cancelListener st;
     trace := trace st ++ [c] |}.

End Setters.

(** ** Helpers: arrays in the store, commands to the document *)

Definition deref (st : State) (l : loc) : list slot :=
  default [] (heap st !! l).

(** A new array object. *)
Definition alloc (a : list slot) (st : State) : loc * State :=
  let l := fresh (dom (heap st)) in
  (l, set_heap st (<[l := a]> (heap st))).

(** Mutation of an array object in place. *)
Definition mutate (l : loc) (f : list slot -> list slot) (st : State) : State :=
  set_heap st (<[l := f (deref st l)]> (heap st)).

Definition run (c : Command) (ed : Editor) : Editor :=
  match c with
  | DeleteRange from to => Doc.deleteRange ed from to
  | InsertContent value => Doc.insertContent ed value
  | SetTextSelection from to => Doc.setTextSelection ed from to
  | SetContent value => Doc.setContent ed value
  end.

(** [editor?.commands.c(...)], the arguments being read from the document
    before the command runs. *)
Definition command (mk : Editor -> Command) (st : State) : State :=
  match editor st with
  | Some ed =>
      let c := mk ed in
      call (set_editor st (Some (run c ed))) (Cmd c)
  | None => st
  end.

Definition nl : string := String "010"%char EmptyString.

(** [`Title: ${title}\n Description: ${description}\n\n ${text}`] *)
Definition prompt (title description : option string) (text : string) : string :=
  "Title: " +:+ Str.tmpl title +:+ nl +:+ " Description: "
    +:+ Str.tmpl description +:+ nl +:+ nl +:+ " " +:+ text.

Record KeyEvent : Type := {
  key : string;
  metaKey : bool
}.

(** ** Effects, in the order of the source *)

(** Autosave, lines 36-49; dependencies [debouncedData, post]. *)
Definition unchanged (debouncedData post : Post.t) : bool :=
  Str.eqb (Post.title debouncedData) (Post.title post)
  && Str.eqb (Post.description debouncedData) (Post.description post)
  && Str.eqb (Post.content debouncedData) (Post.content post)
  && Str.eqb (Post.slides debouncedData) (Post.slides post).

Definition autosave_effect (st : State) : State :=
  if unchanged (debouncedData st) (post st) then st
  else call st (UpdatePost (debouncedData st)).

(** The save shortcut, lines 52-65; dependencies [data]: the listener of
    the previous render is removed and one capturing the current [data] is
    added. *)
Definition save_onKeyDown (d : Post.t) (e : KeyEvent) (st : State) : State :=
  if metaKey e && String.eqb (key e) "s" then
    call (call st PreventDefault) (UpdatePost d)
  else st.

Definition save_effect (st : State) : State :=
  set_saveListener st (Some (data st)).

(** The update callback of the document, lines 70-95; [ed] is [e.editor]. *)
Definition onUpdate (ed : Editor) (st : State) : State :=
  let from := sel_from ed in
  let lastTwo := Doc.textBetween ed (from - 2) from in
  if String.eqb lastTwo "++" && negb (isLoading st) then
    let c := DeleteRange (from - 2) from in
    let ed1 := run c ed in
    let st1 := call (set_editor st (Some ed1)) (Cmd c) in
    let st2 :=
      call st1 (Complete (prompt (Post.title (data st)) (Post.description (data st))
                                 (Doc.getText ed1))) in
    call st2 (Track "Autocomplete Shortcut Used")
  else
    setData st (Post.with_content (Some (Doc.getMarkdown ed)) (data st)).

(** Callbacks of the completion hook, lines 101-112. *)
Definition onFinish (completion : string) (st : State) : State :=
  command (fun ed => SetTextSelection (sel_from ed - Str.len completion) (sel_from ed)) st.

Definition onError (message : string) (st : State) : State :=
  let st1 := call st (ToastError message) in
  if String.eqb message "You have reached your request limit for the day."
  then call st1 (Track "Rate Limit Reached")
  else st1.

(** Insertion of the generated text, lines 118-122; dependencies
    [isLoading, editor, completion]. *)
Definition insert_effect (st : State) : State :=
  let diff := Str.slice (completion st) (Str.len (prev st)) in
  let st1 := set_prev st (completion st) in
  command (fun _ => InsertContent diff) st1.

(** Cancellation, lines 124-169.  The handlers capture [completion.length],
    [data.title] and [data.description] of their render, and reach the
    document through the editor object. *)
Definition cancel_onKeyDown (c : CancelClosure) (e : KeyEvent) (st : State) : State :=
  if String.eqb (key e) "Escape" || (metaKey e && String.eqb (key e) "z") then
    let st1 := call st Stop in
    let st2 :=
      if String.eqb (key e) "Escape" then
        command (fun ed => DeleteRange (sel_from ed - cc_completion_length c)
                                       (sel_from ed)) st1
      else st1 in
    command (fun _ => InsertContent "++") st2
  else st.

Definition mousedownHandler (c : CancelClosure) (confirmed : bool) (st : State) : State :=
  let st1 := call (call (call st PreventDefault) StopPropagation) Stop in
  let st2 := call st1 (Confirm "AI writing paused. Continue?") in
  if confirmed then
    let text :=
      match editor st2 with
      | Some ed => if String.eqb (Doc.getText ed) "" then " " else Doc.getText ed
      | None => " "
      end in
    call st2 (Complete (prompt (cc_title c) (cc_description c) text))
  else st2.

Definition cancel_effect (st : State) : State :=
  set_cancelListener st
    (if isLoading st then
       Some {| cc_completion_length := Str.len (completion st);
               cc_title := Post.title (data st);
               cc_description := Post.description (data st) |}
     else None).

(** Hydration, lines 172-177; dependencies [editor, post, hydrated]. *)
Definition hydrate_effect (st : State) : State :=
  match editor st, Post.content (post st) with
  | Some _, Some c =>
      if Str.truthy (Some c) && negb (hydrated st) then
        setHydrated (command (fun _ => SetContent c) st) true
      else st
  | _, _ => st
  end.

(** The slide operations, lines 179-194. *)
Definition updateSlides (action : string) (index : Z) (value : string)
    (st : State) : State :=
  let '(updatedSlides, st1) := alloc (deref st (slides st)) st in
  if String.eqb action "add" then
    let '(added, st2) :=
      alloc (JsArray.spread (deref st1 (slides st1)) ++ [Str value]) st1 in
    setSlides st2 added
  else if String.eqb action "update" then
    setSlides (mutate updatedSlides (fun a => JsArray.set a index value) st1)
              updatedSlides
  else if String.eqb action "delete" then
    setSlides (mutate updatedSlides (fun a => JsArray.splice a index 1) st1)
              updatedSlides
  else st1.

(** Serialization of the slides into the draft, lines 196-198;
    dependencies [slides]. *)
Definition slides_effect (st : State) : State :=
  setData st
    (Post.with_slides
       (Some (JSON.stringify (JsArray.spread (deref st (slides st)))))
       (data st)).

(** After a render the listener effects have registered the handlers of
    that render. *)
Definition render (st : State) : State := cancel_effect (save_effect st).

(** ** Events *)

Inductive Event : Type :=
| TitleChange (v : string)            (* onChange of the title input *)
| DescriptionChange (v : string)      (* onChange of the description *)
| SlidesAction (action : string) (index : Z) (value : string)
| DocUpdate (ed : Editor)             (* the document became [ed] and the
                                         engine fires its update callback *)
| Hook (c : string) (l : bool)        (* useCompletion returns [c], [l] *)
| Finish (c : string)                 (* onFinish *)
| Failure (message : string)          (* onError *)
| KeyDown (e : KeyEvent)
| MouseDown (confirmed : bool)        (* with the answer to the prompt *)
| DebounceElapsed                     (* the debounce timer fires *)
| PostProp (p : Post.t)               (* the parent passes a new post *)
| EditorReady (ed : Editor).          (* useEditor returns the editor *)

(** A key press reaches the keydown listeners that are registered. *)
Definition dispatch_keydown (st : State) (e : KeyEvent) : State :=
  let st1 := match saveListener st with
             | Some d => save_onKeyDown d e st
             | None => st
             end in
  match cancelListener st with
  | Some c => cancel_onKeyDown c e st1
  | None => st1
  end.

Definition step (st : State) (ev : Event) : State :=
  match ev with
  | TitleChange v =>
      render (setData st (Post.with_title (Some v) (data st)))
  | DescriptionChange v =>
      render (setData st (Post.with_description (Some v) (data st)))
  | SlidesAction action index value =>
      let st1 := updateSlides action index value st in
      render (if Nat.eqb (slides st1) (slides st) then st1 else slides_effect st1)
  | DocUpdate ed =>
      match editor st with
      | Some _ => render (onUpdate ed (set_editor st (Some ed)))
      | None => st
      end
  | Hook c l =>
      if String.eqb c (completion st) && Bool.eqb l (isLoading st) then st
      else render (insert_effect (set_completion st c l))
  | Finish c => render (onFinish c st)
  | Failure message => render (onError message st)
  | KeyDown e => render (dispatch_keydown st e)
  | MouseDown confirmed =>
      match cancelListener st with
      | Some c => render (mousedownHandler c confirmed st)
      | None => st
      end
  | DebounceElapsed =>
      if debouncePending st
      then render (autosave_effect (set_debounced st (data st)))
      else st
  | PostProp p =>
      render (hydrate_effect (autosave_effect (set_post st p)))
  | EditorReady ed =>
      match editor st with
      | Some _ => st
      | None => render (hydrate_effect (insert_effect (set_editor st (Some ed))))
      end
  end.

Definition run_events (st : State) (evs : list Event) : State :=
  fold_left step evs st.

(** The first render of [Editor({ post })]; [parsed] is the value of
    [JSON.parse(post.slides)].  All effects run once, in source order. *)
Definition mount (post : Post.t) (parsed : list slot) : State :=
  let st0 :=
    {| post := post; data := post; hydrated := false;
       slides := 0%nat;
       heap := {[ 0%nat := if Str.truthy (Post.slides post) then parsed else [] ]};
       debouncedData := post; debouncePending := false;
       editor := None; completion := ""; isLoading := false; prev := "";
       saveListener := None; cancelListener := None; trace := [] |} in
  render (slides_effect (hydrate_effect (cancel_effect (insert_effect
    (save_effect (autosave_effect st0)))))).

(** Teardown: the cleanups of the listener effects. *)
Definition unmount (st : State) : State :=
  set_cancelListener (set_saveListener st None) None.

(** The states the component can be in. *)
Inductive reachable : State -> Prop :=
| reachable_mount post parsed : reachable (mount post parsed)
| reachable_step st ev : reachable st -> reachable (step st ev).

(** Number of [setContent] commands and of persistence calls in a trace. *)
Definition is_setContent (c : Call) : bool :=
  match c with Cmd (SetContent _) => true | _ => false end.

Definition is_updatePost (c : Call) : bool :=
  match c with UpdatePost _ => true | _ => false end.

Definition count (f : Call -> bool) (tr : list Call) : nat :=
  length (List.filter f tr).

(** A response that grows chunk by chunk, starting from [p]. *)
Fixpoint growing (p : string) (cs : list string) : Prop :=
  match cs with
  | [] => True
  | c :: cs' => Str.grows p c /\ growing c cs'
  end.

(** The renders of a stream: the hook reports each response while loading. *)
Definition stream (cs : list string) : list Event :=
  map (fun c => Hook c true) cs.

(** ** Invariants of the reachable states: definitions *)

Definition current_slides (st : State) : list slot := deref st (slides st).

Definition closure_of (st : State) : CancelClosure :=
  {| cc_completion_length := Str.len (completion st);
     cc_title := Post.title (data st);
     cc_description := Post.description (data st) |}.

Record invariant (st : State) : Prop := {
  inv_prev : prev st = completion st;
  inv_save : saveListener st = Some (data st);
  inv_cancel :
    cancelListener st = if isLoading st then Some (closure_of st) else None;
  inv_heap : is_Some (heap st !! slides st);
  inv_slides :
    Post.slides (data st) = Some (JSON.stringify (current_slides st))
}.

(** What the listener effects leave untouched. *)
Record same_core (st st' : State) : Prop := {
  core_prev : prev st' = prev st;
  core_completion : completion st' = completion st;
  core_heap : heap st' = heap st;
  core_slides : slides st' = slides st;
  core_dslides : Post.slides (data st') = Post.slides (data st)
}.

Definition initial_slides (post : Post.t) (parsed : list slot) : list slot :=
  if Str.truthy (Post.slides post) then parsed else [].

(** ** Sample data *)

Definition sample_post : Post.t :=
  {| Post.id := "post-1";
     Post.title := Some "Title";
     Post.description := Some "About";
     Post.content := Some "Hello";
     Post.slides := Some (JSON.stringify [Str "A"; Str "B"; Str "C"]);
     Post.published := false |}.

(** A mounted session whose slides are A, B, C. *)
Definition sample_session : State :=
  mount sample_post [Str "A"; Str "B"; Str "C"].

(** ** Autosave: definitions *)

(** The draft equals the baseline on the four compared fields. *)
Definition same_fields (d p : Post.t) : Prop :=
  Post.title d = Post.title p
  /\ Post.description d = Post.description p
  /\ Post.content d = Post.content p
  /\ Post.slides d = Post.slides p.

(** The events that edit the draft. *)
Definition is_mutation (ev : Event) : bool :=
  match ev with
  | TitleChange _ | DescriptionChange _ | SlidesAction _ _ _ | DocUpdate _ => true
  | _ => false
  end.

Definition save_key : KeyEvent := {| key := "s"; metaKey := true |}.

(** ** Hydration: definitions *)

(** The events that can precede the creation of the editor while the post
    prop stays the one of the first render. *)
Definition is_early (ev : Event) : bool :=
  match ev with
  | PostProp _ | EditorReady _ => false
  | _ => true
  end.

(** ** Completion: definitions *)

(** The document [before +:+ after] with the cursor between the two. *)
Definition at_cursor (before after : string) : Editor :=
  {| doc := before +:+ after;
     sel_from := Str.len before;
     sel_to := Str.len before |}.

Definition insertions (vs : list string) : list Call :=
  map (fun v => Cmd (InsertContent v)) vs.

Definition escape_key : KeyEvent := {| key := "Escape"; metaKey := false |}.

Definition is_hook (ev : Event) : bool :=
  match ev with
  | Hook _ _ => true
  | _ => false
  end.

(** A session that has streamed the response "orld" after "Hello w" and has
    finished. *)
Definition finished_session : State :=
  run_events sample_session
    [EditorReady Doc.empty;
     DocUpdate (at_cursor "Hello w++" "");
     Hook "" true; Hook "or" true; Hook "orld" true;
     Finish "orld"; Hook "orld" false].

(** A session in which the response "or" has been streamed after "Hello w". *)
Definition streaming_session : State :=
  run_events sample_session
    [EditorReady Doc.empty;
     DocUpdate (at_cursor "Hello w++" "");
     Hook "" true; Hook "or" true].

(** ** Further definitions *)

(** The calls a step adds to the trace. *)
Definition issued (st : State) (ev : Event) : list Call :=
  drop (length (trace st)) (trace (step st ev)).

Definition undo_key : KeyEvent := {| key := "z"; metaKey := true |}.

(** The key presses some registered handler of [st] reacts to. *)
Definition handled (st : State) (e : KeyEvent) : bool :=
  (metaKey e && String.eqb (key e) "s")
  || (isLoading st
      && (String.eqb (key e) "Escape" || (metaKey e && String.eqb (key e) "z"))).


Definition is_complete (c : Call) : bool :=
  match c with Complete _ => true | _ => false end.

(** The text a prompt built by the mouse handler carries. *)
Definition text_or_blank (ed : option Editor) : string :=
  match ed with
  | Some ed => if String.eqb (Doc.getText ed) "" then " " else Doc.getText ed
  | None => " "
  end.


Definition is_post_prop (ev : Event) : bool :=
  match ev with
  | PostProp _ => true
  | _ => false
  end.

(** A post that has never been given content or slides. *)
Definition blank_post : Post.t :=
  {| Post.id := "post-2";
     Post.title := Some "Draft";
     Post.description := None;
     Post.content := None;
     Post.slides := None;
     Post.published := false |}.


(** ** Reading back a serialized string *)

Module JSONRead.

Definition hex_value (c : ascii) : option nat :=
  String.index 0 (String c EmptyString) "0123456789abcdef".

(** The character a two-character escape stands for. *)
Definition unescape_char (x : ascii) : option ascii :=
  if Ascii.eqb x "b" then Some "008"%char
  else if Ascii.eqb x "t" then Some "009"%char
  else if Ascii.eqb x "n" then Some "010"%char
  else if Ascii.eqb x "f" then Some "012"%char
  else if Ascii.eqb x "r" then Some "013"%char
  else if Ascii.eqb x JSON.quote then Some JSON.quote
  else if Ascii.eqb x "\" then Some "\"%char
  else None.

Definition cons_read (c : ascii) (r : option (string * string))
    : option (string * string) :=
  match r with
  | Some (s, t) => Some (String c s, t)
  | None => None
  end.

(** Reads the body of a string literal up to its closing quote; gives the
    string it stands for and what follows the quote. *)
Fixpoint read_string (s : string) : option (string * string) :=
  match s with
  | EmptyString => None
  | String c rest =>
      if Ascii.eqb c JSON.quote then Some (EmptyString, rest)
      else if Ascii.eqb c "\" then
        match rest with
        | String x rest1 =>
            if Ascii.eqb x "u" then
              match rest1 with
              | String _ (String _ (String h1 (String h2 rest2))) =>
                  match hex_value h1, hex_value h2 with
                  | Some a, Some b =>
                      cons_read (ascii_of_nat (16 * a + b)) (read_string rest2)
                  | _, _ => None
                  end
              | _ => None
              end
            else
              match unescape_char x with
              | Some c' => cons_read c' (read_string rest1)
              | None => None
              end
        | EmptyString => None
        end
      else cons_read c (read_string rest)
  end.

End JSONRead.


(** What follows the first element of a joined list. *)
Definition join_tail (l : list string) : string :=
  match l with
  | [] => EmptyString
  | _ :: _ => "," +:+ JSON.join l
  end.

(** ** The publish button *)

Definition with_published (v : bool) (p : Post.t) : Post.t :=
  {| Post.id := Post.id p; Post.title := Post.title p;
     Post.description := Post.description p; Post.content := Post.content p;
     Post.slides := Post.slides p; Post.published := v |}.

(** [String(b)] *)
Definition string_of_bool (b : bool) : string :=
  if b then "true" else "false".

(** The arguments of [updatePostMetadata]: the value appended to the form
    data under "published", the id of the post and the key. *)
Record MetadataRequest : Type := {
  form_published : string;
  request_id : string;
  request_key : string
}.

(** The click handler, lines 218-223. *)
Definition publish_onClick (st : State) : MetadataRequest :=
  {| form_published := string_of_bool (negb (Post.published (data st)));
     request_id := Post.id (post st);
     request_key := "published" |}.

(** The continuation of a successful request, lines 224-230: the message
    of the toast and the state after [setData]; [d] is the [data] of the
    render in which the button was pressed. *)
Definition publish_then (d : Post.t) (st : State) : string * State :=
  ("Successfully " +:+ (if Post.published d then "unpublished" else "published")
     +:+ " your post.",
   render (setData st (with_published (negb (Post.published (data st))) (data st)))).


(** ** The update callback as the engine runs it *)

(** The engine emits its update event inside every command that changes the
    document, so the callback of lines 70-95 runs again inside its own
    [deleteRange], before [complete] is called; [ed] is [e.editor] and [n]
    bounds the nesting (each nested run follows the deletion of two
    characters). *)
Fixpoint onUpdate_nested (n : nat) (ed : Editor) (st : State) : State :=
  let from := sel_from ed in
  let lastTwo := Doc.textBetween ed (from - 2) from in
  if String.eqb lastTwo "++" && negb (isLoading st) then
    let c := DeleteRange (from - 2) from in
    let ed1 := run c ed in
    let st1 := call (set_editor st (Some ed1)) (Cmd c) in
    let st1' :=
      if String.eqb (doc ed1) (doc ed) then st1
      else match n with
           | S n' => onUpdate_nested n' ed1 st1
           | O => st1
           end in
    let text :=
      match editor st1' with
      | Some ed2 => Doc.getText ed2
      | None => Doc.getText ed1
      end in
    let st2 :=
      call st1' (Complete (prompt (Post.title (data st)) (Post.description (data st))
                                  text)) in
    call st2 (Track "Autocomplete Shortcut Used")
  else
    setData st (Post.with_content (Some (Doc.getMarkdown ed)) (data st)).

(** The document became [ed] and the engine emits its update event. *)
Definition document_update (ed : Editor) (st : State) : State :=
  match editor st with
  | Some _ =>
      render (onUpdate_nested (String.length (doc ed)) ed (set_editor st (Some ed)))
  | None => st
  end.

(** The session of [streaming_session], with the update events the engine
    emits after the deletion of the marker and after the insertion of
    "or". *)
Definition streaming_updated : State :=
  run_events (document_update (at_cursor "Hello w++" "")
                (step sample_session (EditorReady Doc.empty)))
    [Hook "" true; Hook "or" true; DocUpdate (at_cursor "Hello wor" "")].


(** The events after which the engine emits no update event: the component
    sends the document no command, or one that changes no text (the
    selection of [onFinish]) or one the engine does not notify (the content
    set by hydration).  The cancel keys count only while a completion is
    loading. *)
Definition quiet (st : State) (ev : Event) : bool :=
  match ev with
  | Finish _ | Failure _ | MouseDown _ | DebounceElapsed | PostProp _ => true
  | KeyDown e =>
      negb (isLoading st
            && (String.eqb (key e) "Escape" || (metaKey e && String.eqb (key e) "z")))
  | _ => false
  end.

(** * Properties *)

(** ** Strings *)

Section StringFacts.

Implicit Types s t u : string.

Lemma str_app_nil_l s : "" +:+ s = s.
Proof. reflexivity. Qed.

Lemma str_app_cons c s t : String c s +:+ t = String c (s +:+ t).
Proof. reflexivity. Qed.

Lemma str_app_nil_r s : s +:+ "" = s.
Proof.
  induction s as [|c s IH]; [reflexivity|]. now rewrite str_app_cons, IH.
Qed.

Lemma str_app_assoc s t u : (s +:+ t) +:+ u = s +:+ (t +:+ u).
Proof.
  induction s as [|c s IH]; [reflexivity|]. now rewrite !str_app_cons, IH.
Qed.

Lemma str_length_app s t :
  String.length (s +:+ t) = (String.length s + String.length t)%nat.
Proof.
  induction s as [|c s IH]; [reflexivity|].
  rewrite str_app_cons. simpl. now rewrite IH.
Qed.

Lemma len_app s t : Str.len (s +:+ t) = Str.len s + Str.len t.
Proof. unfold Str.len. rewrite str_length_app. lia. Qed.

Lemma len_nonneg s : 0 <= Str.len s.
Proof. unfold Str.len. lia. Qed.

Lemma str_take_drop n s : Str.take n s +:+ Str.drop n s = s.
Proof.
  revert s. induction n as [|n IH]; intros [|c s]; simpl; try reflexivity.
  now rewrite str_app_cons, IH.
Qed.

Lemma str_take_app s t : Str.take (String.length s) (s +:+ t) = s.
Proof.
  induction s as [|c s IH]; [now destruct t|].
  rewrite str_app_cons. simpl. now rewrite IH.
Qed.

Lemma str_drop_app_plus s t n :
  Str.drop (String.length s + n) (s +:+ t) = Str.drop n t.
Proof.
  induction s as [|c s IH]; [reflexivity|]. rewrite str_app_cons. exact IH.
Qed.

Lemma str_drop_app s t : Str.drop (String.length s) (s +:+ t) = t.
Proof.
  rewrite <- (Nat.add_0_r (String.length s)). now rewrite str_drop_app_plus.
Qed.

Lemma str_length_take n s :
  String.length (Str.take n s) = Nat.min n (String.length s).
Proof.
  revert s. induction n as [|n IH]; intros [|c s]; simpl; try reflexivity.
  now rewrite IH.
Qed.

Lemma str_length_drop n s :
  String.length (Str.drop n s) = (String.length s - n)%nat.
Proof.
  revert s. induction n as [|n IH]; intros [|c s]; simpl; try reflexivity.
  apply IH.
Qed.

Lemma slice_app s t : Str.slice (s +:+ t) (Str.len s) = t.
Proof.
  unfold Str.slice. pose proof (len_nonneg s) as Hs.
  destruct (Z.ltb_spec (Str.len s) 0) as [?|_]; [lia|].
  rewrite len_app, Z.min_l by (pose proof (len_nonneg t); lia).
  unfold Str.len. rewrite Nat2Z.id. apply str_drop_app.
Qed.

Lemma grows_refl s : Str.grows s s.
Proof. exists EmptyString. symmetry. apply str_app_nil_r. Qed.

Lemma grows_nil s : Str.grows "" s.
Proof. now exists s. Qed.

Lemma str_eqb_eq (x y : option string) : Str.eqb x y = true <-> x = y.
Proof.
  destruct x as [a|], y as [b|]; simpl; try (split; congruence).
  rewrite String.eqb_eq. split; congruence.
Qed.

End StringFacts.

(** ** Arrays in the store *)

Section SlideFacts.

Lemma fresh_ne (h : gmap loc (list slot)) (l : loc) :
  is_Some (h !! l) -> fresh (dom h) <> l.
Proof.
  intros Hl Heq. apply elem_of_dom in Hl. rewrite <- Heq in Hl.
  exact (is_fresh (dom h) Hl).
Qed.

Lemma element_spread (a : list slot) :
  map JSON.element (JsArray.spread a) = map JSON.element a.
Proof.
  unfold JsArray.spread. rewrite map_map. apply map_ext. now intros [| |s].
Qed.

Lemma stringify_spread (a : list slot) :
  JSON.stringify (JsArray.spread a) = JSON.stringify a.
Proof. unfold JSON.stringify. now rewrite element_spread. Qed.

Lemma spread_strings (l : list string) :
  JsArray.spread (map Str l) = map Str l.
Proof. unfold JsArray.spread. rewrite map_map. reflexivity. Qed.

Variable st : State.
Hypothesis Hslides : is_Some (heap st !! slides st).


Lemma updateSlides_add index value :
  let st' := updateSlides "add" index value st in
  slides st' <> slides st
  /\ heap st' !! slides st' = Some (JsArray.spread (deref st (slides st)) ++ [Str value])
  /\ heap st' !! slides st = heap st !! slides st.
Proof.
  pose proof (fresh_ne _ _ Hslides) as Hne.
  unfold updateSlides, alloc, deref. simpl.
  set (h1 := <[fresh (dom (heap st)) := _]> (heap st)).
  assert (H1 : is_Some (h1 !! slides st)).
  { unfold h1. rewrite lookup_insert_ne by done. done. }
  pose proof (fresh_ne _ _ H1) as Hne1.
  split; [done|]. split.
  - rewrite lookup_insert_eq. f_equal. f_equal. f_equal.
    unfold h1. rewrite lookup_insert_ne by done. reflexivity.
  - rewrite lookup_insert_ne by done. unfold h1. now rewrite lookup_insert_ne by done.
Qed.

Lemma updateSlides_update index value :
  let st' := updateSlides "update" index value st in
  slides st' <> slides st
  /\ heap st' !! slides st' = Some (JsArray.set (deref st (slides st)) index value)
  /\ heap st' !! slides st = heap st !! slides st.
Proof.
  pose proof (fresh_ne _ _ Hslides) as Hne.
  unfold updateSlides, alloc, mutate, deref. simpl.
  split; [done|]. split.
  - rewrite lookup_insert_eq. f_equal. now rewrite lookup_insert_eq.
  - now rewrite !lookup_insert_ne by done.
Qed.

Lemma updateSlides_delete index value :
  let st' := updateSlides "delete" index value st in
  slides st' <> slides st
  /\ heap st' !! slides st' = Some (JsArray.splice (deref st (slides st)) index 1)
  /\ heap st' !! slides st = heap st !! slides st.
Proof.
  pose proof (fresh_ne _ _ Hslides) as Hne.
  unfold updateSlides, alloc, mutate, deref. simpl.
  split; [done|]. split.
  - rewrite lookup_insert_eq. f_equal. now rewrite lookup_insert_eq.
  - now rewrite !lookup_insert_ne by done.
Qed.

End SlideFacts.

(** ** Invariants of the reachable states *)

Lemma same_core_refl st : same_core st st.
Proof. now split. Qed.

Lemma render_invariant st st0 :
  same_core st0 st -> invariant st0 -> invariant (render st).
Proof.
  intros [Hp Hc Hh Hs Hd] [I1 I2 I3 I4 I5]. split; simpl.
  - congruence.
  - reflexivity.
  - reflexivity.
  - now rewrite Hh, Hs.
  - unfold current_slides, deref in *. simpl. now rewrite Hd, Hh, Hs.
Qed.

Lemma command_core mk st : same_core st (command mk st).
Proof. unfold command. destruct (editor st); now split. Qed.

Lemma same_core_trans a b c : same_core a b -> same_core b c -> same_core a c.
Proof. intros [] []. split; congruence. Qed.

Lemma onUpdate_core ed st : same_core st (onUpdate ed (set_editor st (Some ed))).
Proof. unfold onUpdate. case_match; now split. Qed.

Lemma dispatch_keydown_core st e : same_core st (dispatch_keydown st e).
Proof.
  unfold dispatch_keydown, save_onKeyDown, cancel_onKeyDown.
  repeat case_match;
    repeat (eapply same_core_trans; [|apply command_core]); now split.
Qed.

Lemma mousedownHandler_core c b st : same_core st (mousedownHandler c b st).
Proof. unfold mousedownHandler. repeat case_match; now split. Qed.

Lemma hydrate_core st : same_core st (hydrate_effect st).
Proof.
  unfold hydrate_effect. repeat case_match; try apply same_core_refl.
  eapply same_core_trans; [apply command_core|]. now split.
Qed.

Lemma autosave_core st : same_core st (autosave_effect st).
Proof. unfold autosave_effect. case_match; now split. Qed.

Lemma onError_core m st : same_core st (onError m st).
Proof. unfold onError. case_match; now split. Qed.

Lemma slides_step_invariant action index value st :
  invariant st ->
  invariant (step st (SlidesAction action index value)).
Proof.
  intros I. pose proof I as [I1 I2 I3 I4 I5].
  pose proof (fresh_ne _ _ I4) as Hne.
  simpl. destruct (Nat.eqb_spec (slides (updateSlides action index value st)) (slides st)) as [Heq|Hneq].
  - (* setSlides was not called *)
    revert Heq. unfold updateSlides, alloc. simpl.
    destruct (String.eqb action "add").
    { simpl. intros Heq. exfalso. revert Heq. apply fresh_ne.
      rewrite lookup_insert_ne by done. done. }
    destruct (String.eqb action "update"); [simpl; intros; exfalso; done|].
    destruct (String.eqb action "delete"); [simpl; intros; exfalso; done|].
    intros _. split; simpl; try done.
    + now rewrite lookup_insert_ne by done.
    + rewrite I5. unfold current_slides, deref. simpl.
      now rewrite lookup_insert_ne by done.
  - clear Hneq. split.
    + simpl. unfold updateSlides, alloc, mutate. simpl.
      repeat case_match; simpl; done.
    + reflexivity.
    + simpl. unfold updateSlides, alloc, mutate. simpl.
      repeat case_match; simpl; done.
    + simpl. unfold updateSlides, alloc, mutate. simpl.
      repeat case_match; simpl; try apply lookup_insert_is_Some; auto.
    + unfold render, cancel_effect, save_effect, slides_effect, current_slides.
      simpl. now rewrite stringify_spread.
Qed.

Lemma step_invariant st ev : invariant st -> invariant (step st ev).
Proof.
  intros I. destruct ev; simpl.
  - eapply render_invariant; [|exact I]. now split.
  - eapply render_invariant; [|exact I]. now split.
  - now apply slides_step_invariant.
  - destruct (editor st); [|exact I].
    eapply render_invariant; [|exact I]. apply onUpdate_core.
  - case_match; [exact I|]. destruct I as [I1 I2 I3 I4 I5].
    split; simpl; try done.
    + unfold insert_effect, command. simpl. now destruct (editor st).
    + unfold insert_effect, command. simpl. now destruct (editor st).
    + unfold current_slides, deref, insert_effect, command. simpl.
      now destruct (editor st).
  - eapply render_invariant; [|exact I]. apply command_core.
  - eapply render_invariant; [|exact I]. apply onError_core.
  - eapply render_invariant; [|exact I]. apply dispatch_keydown_core.
  - destruct (cancelListener st); [|exact I].
    eapply render_invariant; [|exact I]. apply mousedownHandler_core.
  - destruct (debouncePending st); [|exact I].
    eapply render_invariant; [|exact I].
    eapply same_core_trans; [|apply autosave_core]. now split.
  - eapply render_invariant; [|exact I].
    eapply same_core_trans; [|apply hydrate_core].
    eapply same_core_trans; [|apply autosave_core]. now split.
  - destruct (editor st) eqn:He; [exact I|].
    eapply render_invariant; [|exact I].
    eapply same_core_trans; [|apply hydrate_core].
    destruct I as [I1 I2 I3 I4 I5].
    unfold insert_effect, command. simpl. now split.
Qed.

Lemma str_eqb_refl (x : option string) : Str.eqb x x = true.
Proof. now apply str_eqb_eq. Qed.

Lemma unchanged_refl (p : Post.t) : unchanged p p = true.
Proof. unfold unchanged. now rewrite !str_eqb_refl. Qed.

(** The state after the first render and its effects. *)
Lemma mount_eq post parsed :
  let d := Post.with_slides
             (Some (JSON.stringify (JsArray.spread (initial_slides post parsed))))
             post in
  mount post parsed =
    {| post := post; data := d; hydrated := false;
       slides := 0%nat; heap := {[ 0%nat := initial_slides post parsed ]};
       debouncedData := post; debouncePending := true;
       editor := None; completion := ""; isLoading := false; prev := "";
       saveListener := Some d; cancelListener := None; trace := [] |}.
Proof.
  unfold mount, autosave_effect. simpl. rewrite unchanged_refl.
  unfold render, slides_effect, hydrate_effect, cancel_effect, insert_effect,
    save_effect, command, deref. simpl.
  reflexivity.
Qed.

Lemma mount_invariant post parsed : invariant (mount post parsed).
Proof.
  rewrite mount_eq. split; try done.
  unfold current_slides, deref. cbn [heap slides data Post.slides Post.with_slides].
  rewrite lookup_singleton_eq. simpl. now rewrite stringify_spread.
Qed.

Lemma reachable_invariant st : reachable st -> invariant st.
Proof.
  induction 1; [apply mount_invariant | now apply step_invariant].
Qed.

(** ** The slide list *)

Section ArrayFacts.

Lemma insert_strings (l : list string) (n : nat) (v : string) :
  <[n := Str v]> (map Str l) = map Str (<[n := v]> l).
Proof.
  revert n. induction l as [|x l IH]; intros [|n]; simpl; try reflexivity.
  f_equal. apply IH.
Qed.

Lemma delete_strings (l : list string) (n : nat) :
  delete n (map Str l) = map Str (delete n l).
Proof.
  revert n. induction l as [|x l IH]; intros [|n]; simpl; try reflexivity.
  f_equal. apply IH.
Qed.

Lemma set_in_bounds (a : list slot) (i : Z) (v : string) :
  0 <= i < Z.of_nat (length a) ->
  Z.of_nat (length a) <= 2 ^ 32 - 1 ->
  JsArray.set a i v = <[Z.to_nat i := Str v]> a.
Proof.
  intros Hi Hmax. unfold JsArray.set, JsArray.is_index.
  destruct (Z.leb_spec 0 i); [|lia].
  destruct (Z.ltb_spec i (2 ^ 32 - 1)); [|lia]. simpl.
  destruct (Nat.ltb_spec (Z.to_nat i) (length a)); [reflexivity|lia].
Qed.

Lemma set_beyond (a : list slot) (i : Z) (v : string) :
  Z.of_nat (length a) <= i < 2 ^ 32 - 1 ->
  JsArray.set a i v = a ++ repeat Hole (Z.to_nat i - length a) ++ [Str v].
Proof.
  intros Hi. unfold JsArray.set, JsArray.is_index.
  destruct (Z.leb_spec 0 i); [|lia].
  destruct (Z.ltb_spec i (2 ^ 32 - 1)); [|lia]. simpl.
  destruct (Nat.ltb_spec (Z.to_nat i) (length a)); [lia|reflexivity].
Qed.

Lemma set_not_index (a : list slot) (i : Z) (v : string) :
  i < 0 \/ 2 ^ 32 - 1 <= i -> JsArray.set a i v = a.
Proof.
  intros Hi. unfold JsArray.set, JsArray.is_index.
  destruct (Z.leb_spec 0 i); simpl; [|reflexivity].
  destruct (Z.ltb_spec i (2 ^ 32 - 1)); [lia|reflexivity].
Qed.

Lemma splice_in_bounds (a : list slot) (i : Z) :
  0 <= i < Z.of_nat (length a) ->
  JsArray.splice a i 1 = delete (Z.to_nat i) a.
Proof.
  intros Hi. unfold JsArray.splice. cbv zeta.
  destruct (Z.ltb_spec i 0); [lia|].
  rewrite delete_take_drop. f_equal; f_equal; lia.
Qed.

Lemma splice_beyond (a : list slot) (i : Z) :
  Z.of_nat (length a) <= i -> JsArray.splice a i 1 = a.
Proof.
  intros Hi. unfold JsArray.splice. cbv zeta.
  destruct (Z.ltb_spec i 0); [lia|].
  match goal with
  | |- firstn ?n a ++ skipn ?m a = _ =>
      replace n with (length a) by lia; replace m with (length a) by lia
  end.
  apply firstn_skipn.
Qed.

(** A negative start counts from the end of the array. *)
Lemma splice_negative (a : list slot) (i : Z) :
  i < 0 -> a <> [] ->
  JsArray.splice a i 1 =
    delete (Z.to_nat (Z.max (Z.of_nat (length a) + i) 0)) a.
Proof.
  intros Hi Ha. unfold JsArray.splice. cbv zeta.
  assert (0 < Z.of_nat (length a)) by (destruct a; simpl; [done|lia]).
  destruct (Z.ltb_spec i 0); [|lia].
  rewrite delete_take_drop. f_equal; f_equal; lia.
Qed.

End ArrayFacts.

Section CurrentSlides.

Variable st : State.

Lemma current_add index value :
  current_slides (updateSlides "add" index value st)
  = JsArray.spread (current_slides st) ++ [Str value].
Proof.
  unfold current_slides, updateSlides, alloc, deref. simpl.
  rewrite lookup_insert_eq. simpl. do 2 f_equal.
  destruct (decide (fresh (dom (heap st)) = slides st)) as [->|Hne].
  - now rewrite lookup_insert_eq.
  - now rewrite lookup_insert_ne.
Qed.

Lemma current_update index value :
  current_slides (updateSlides "update" index value st)
  = JsArray.set (current_slides st) index value.
Proof.
  unfold current_slides, updateSlides, alloc, mutate, deref. simpl.
  now rewrite !lookup_insert_eq.
Qed.

Lemma current_delete index value :
  current_slides (updateSlides "delete" index value st)
  = JsArray.splice (current_slides st) index 1.
Proof.
  unfold current_slides, updateSlides, alloc, mutate, deref. simpl.
  now rewrite !lookup_insert_eq.
Qed.

End CurrentSlides.

(** C3, as amended.  The slide operations have no bounds check: deleting at
    an index at or beyond the length and updating at a negative index leave
    the slides as they were, whereas updating at an index at or beyond the
    length extends the list with empty slots up to that index, and deleting
    at a negative index removes the element counted from the end. *)
Theorem slides_out_of_bounds (st : State) (i : Z) (v : string) :
  let a := current_slides st in
  (Z.of_nat (length a) <= i ->
     current_slides (updateSlides "delete" i v st) = a)
  /\ (i < 0 ->
     current_slides (updateSlides "update" i v st) = a)
  /\ (Z.of_nat (length a) <= i < 2 ^ 32 - 1 ->
     current_slides (updateSlides "update" i v st)
     = a ++ repeat Hole (Z.to_nat i - length a) ++ [Str v])
  /\ (i < 0 -> a <> [] ->
     current_slides (updateSlides "delete" i v st)
     = delete (Z.to_nat (Z.max (Z.of_nat (length a) + i) 0)) a).
Proof.
  cbv zeta. rewrite current_delete, current_update. repeat split.
  - apply splice_beyond.
  - intros Hi. apply set_not_index. now left.
  - apply set_beyond.
  - apply splice_negative.
Qed.

Lemma slides_out_of_bounds_witness :
  current_slides (updateSlides "delete" 3 "" sample_session)
    = current_slides sample_session
  /\ current_slides (updateSlides "update" (-1) "X" sample_session)
    = current_slides sample_session
  /\ current_slides (updateSlides "update" 4 "X" sample_session)
    = [Str "A"; Str "B"; Str "C"; Hole; Str "X"]
  /\ current_slides (updateSlides "delete" (-1) "" sample_session)
    = [Str "A"; Str "B"].
Proof.
  split; [|split; [|split]].
  - destruct (slides_out_of_bounds sample_session 3 "") as (H & _).
    apply H. vm_compute. congruence.
  - destruct (slides_out_of_bounds sample_session (-1) "X") as (_ & H & _).
    apply H. reflexivity.
  - destruct (slides_out_of_bounds sample_session 4 "X") as (_ & _ & H & _).
    apply H. vm_compute. split; [congruence | reflexivity].
  - destruct (slides_out_of_bounds sample_session (-1) "") as (_ & _ & _ & H).
    apply H; [reflexivity|]. vm_compute. congruence.
Defined.

(** C3 as stated fails: an update beyond the end and a delete at a negative
    index both change the slides. *)
Lemma stale_index_changes_slides :
  Z.of_nat (length (current_slides sample_session)) <= 4
  /\ current_slides (updateSlides "update" 4 "X" sample_session)
     <> current_slides sample_session
  /\ -1 < 0
  /\ current_slides (updateSlides "delete" (-1) "" sample_session)
     <> current_slides sample_session.
Proof.
  vm_compute. repeat split; congruence.
Qed.

Section SlideOperations.

Variable st : State.
Variable l : list string.
Hypothesis Hcur : heap st !! slides st = Some (map Str l).

Lemma current_is_Some : is_Some (heap st !! slides st).
Proof. rewrite Hcur. done. Qed.

Lemma current_strings : current_slides st = map Str l.
Proof. unfold current_slides, deref. now rewrite Hcur. Qed.

Lemma add_strings index value :
  let st' := updateSlides "add" index value st in
  heap st' !! slides st' = Some (map Str (l ++ [value]))
  /\ slides st' <> slides st
  /\ heap st' !! slides st = Some (map Str l).
Proof.
  destruct (updateSlides_add st current_is_Some index value) as (Hne & Hnew & Hold).
  cbv zeta. rewrite Hnew, Hold, Hcur. repeat split; [|done].
  fold (current_slides st). rewrite current_strings, spread_strings.
  now rewrite map_app.
Qed.

Lemma update_strings index value :
  0 <= index < Z.of_nat (length l) ->
  Z.of_nat (length l) <= 2 ^ 32 - 1 ->
  let st' := updateSlides "update" index value st in
  heap st' !! slides st' = Some (map Str (<[Z.to_nat index := value]> l))
  /\ slides st' <> slides st
  /\ heap st' !! slides st = Some (map Str l).
Proof.
  intros Hi Hmax.
  destruct (updateSlides_update st current_is_Some index value) as (Hne & Hnew & Hold).
  cbv zeta. rewrite Hnew, Hold, Hcur. repeat split; [|done].
  fold (current_slides st). rewrite current_strings.
  rewrite set_in_bounds by (rewrite length_map; lia).
  now rewrite insert_strings.
Qed.

Lemma delete_strings_op index value :
  0 <= index < Z.of_nat (length l) ->
  let st' := updateSlides "delete" index value st in
  heap st' !! slides st' = Some (map Str (delete (Z.to_nat index) l))
  /\ slides st' <> slides st
  /\ heap st' !! slides st = Some (map Str l).
Proof.
  intros Hi.
  destruct (updateSlides_delete st current_is_Some index value) as (Hne & Hnew & Hold).
  cbv zeta. rewrite Hnew, Hold, Hcur. repeat split; [|done].
  fold (current_slides st). rewrite current_strings.
  rewrite splice_in_bounds by (rewrite length_map; lia).
  now rewrite delete_strings.
Qed.

End SlideOperations.

(** C6.  On a list of slides [l], append adds the value at the end, update
    within bounds replaces the element at the index, delete within bounds
    removes it; from A, B, C the operations delete(1), update(0, Z),
    append(D) give A, C then Z, C then Z, C, D; each result is a new array
    and the array that was current before still holds what it held. *)
Theorem slide_operations :
  (forall (st : State) (l : list string) (i : Z) (v : string),
      heap st !! slides st = Some (map Str l) ->
      let st' := updateSlides "add" i v st in
      heap st' !! slides st' = Some (map Str (l ++ [v]))
      /\ slides st' <> slides st
      /\ heap st' !! slides st = Some (map Str l))
  /\ (forall (st : State) (l : list string) (i : Z) (v : string),
      heap st !! slides st = Some (map Str l) ->
      0 <= i < Z.of_nat (length l) ->
      Z.of_nat (length l) <= 2 ^ 32 - 1 ->
      let st' := updateSlides "update" i v st in
      heap st' !! slides st' = Some (map Str (<[Z.to_nat i := v]> l))
      /\ slides st' <> slides st
      /\ heap st' !! slides st = Some (map Str l))
  /\ (forall (st : State) (l : list string) (i : Z) (v : string),
      heap st !! slides st = Some (map Str l) ->
      0 <= i < Z.of_nat (length l) ->
      let st' := updateSlides "delete" i v st in
      heap st' !! slides st' = Some (map Str (delete (Z.to_nat i) l))
      /\ slides st' <> slides st
      /\ heap st' !! slides st = Some (map Str l))
  /\ (forall (st : State),
      heap st !! slides st = Some (map Str ["A"; "B"; "C"]) ->
      let st1 := updateSlides "delete" 1 "" st in
      let st2 := updateSlides "update" 0 "Z" st1 in
      let st3 := updateSlides "add" 0 "D" st2 in
      current_slides st1 = map Str ["A"; "C"]
      /\ current_slides st2 = map Str ["Z"; "C"]
      /\ current_slides st3 = map Str ["Z"; "C"; "D"]).
Proof.
  split; [|split; [|split]].
  - intros. now apply add_strings.
  - intros. now apply update_strings.
  - intros. now apply delete_strings_op.
  - intros st H0. cbv zeta.
    destruct (delete_strings_op st _ H0 1 "") as (H1 & _); [simpl; lia|].
    destruct (update_strings _ _ H1 0 "Z") as (H2 & _); [simpl; lia..|].
    destruct (add_strings _ _ H2 0 "D") as (H3 & _).
    repeat split; unfold current_slides, deref.
    + now rewrite H1.
    + now rewrite H2.
    + now rewrite H3.
Qed.

Lemma slide_operations_witness :
  let st1 := updateSlides "delete" 1 "" sample_session in
  let st2 := updateSlides "update" 0 "Z" st1 in
  let st3 := updateSlides "add" 0 "D" st2 in
  (current_slides st1 = map Str ["A"; "C"]
   /\ current_slides st2 = map Str ["Z"; "C"]
   /\ current_slides st3 = map Str ["Z"; "C"; "D"])
  /\ (slides st2 <> slides st1
      /\ heap st2 !! slides st1 = Some (map Str ["A"; "C"])).
Proof.
  destruct slide_operations as (_ & Hupd & _ & Hscenario).
  split.
  - apply Hscenario. reflexivity.
  - apply (Hupd (updateSlides "delete" 1 "" sample_session) ["A"; "C"] 0 "Z").
    + reflexivity.
    + simpl. lia.
    + simpl. lia.
Defined.

Lemma step_slides_current st action index value :
  current_slides (step st (SlidesAction action index value))
  = current_slides (updateSlides action index value st).
Proof.
  unfold step. case_match; reflexivity.
Qed.

(** C9.  After a slide operation in a running session, the slides field of
    the draft is the JSON serialization of the slides now in memory: for
    append, update and delete it is the serialization of the list the
    operation produced. *)
Theorem slides_field_in_sync (st : State) (action : string) (index : Z)
    (value : string) :
  reachable st ->
  let st' := step st (SlidesAction action index value) in
  Post.slides (data st') = Some (JSON.stringify (current_slides st'))
  /\ (action = "add" ->
      Post.slides (data st')
      = Some (JSON.stringify (current_slides st ++ [Str value])))
  /\ (action = "update" ->
      Post.slides (data st')
      = Some (JSON.stringify (JsArray.set (current_slides st) index value)))
  /\ (action = "delete" ->
      Post.slides (data st')
      = Some (JSON.stringify (JsArray.splice (current_slides st) index 1))).
Proof.
  intros Hr. cbv zeta.
  assert (Hsync : Post.slides (data (step st (SlidesAction action index value)))
                  = Some (JSON.stringify
                            (current_slides (step st (SlidesAction action index value))))).
  { apply inv_slides, reachable_invariant. now constructor. }
  rewrite Hsync, step_slides_current. repeat split.
  - intros ->. rewrite current_add. unfold JSON.stringify.
    now rewrite !map_app, element_spread.
  - intros ->. now rewrite current_update.
  - intros ->. now rewrite current_delete.
Qed.

Lemma slides_field_in_sync_witness :
  Post.slides (data (step sample_session (SlidesAction "delete" 1 "")))
  = Some (JSON.stringify [Str "A"; Str "C"]).
Proof.
  destruct (slides_field_in_sync sample_session "delete" 1 "") as (_ & _ & _ & H).
  - apply reachable_mount.
  - apply H. reflexivity.
Defined.

(** ** Autosave and the save shortcut *)

Lemma unchanged_spec d p : unchanged d p = true <-> same_fields d p.
Proof.
  unfold unchanged, same_fields. rewrite !andb_true_iff, !str_eqb_eq. tauto.
Qed.

Lemma count_app f tr1 tr2 : count f (tr1 ++ tr2) = (count f tr1 + count f tr2)%nat.
Proof. unfold count. now rewrite List.filter_app, length_app. Qed.

Lemma mutation_no_save st ev :
  is_mutation ev = true ->
  count is_updatePost (trace (step st ev)) = count is_updatePost (trace st)
  /\ post (step st ev) = post st.
Proof.
  destruct ev; try discriminate; intros _; simpl.
  - done.
  - done.
  - unfold updateSlides, alloc, mutate. simpl. repeat case_match; done.
  - destruct (editor st); [|done]. unfold onUpdate. case_match; simpl.
    + rewrite !count_app. unfold count at 2 3 4. simpl. split; [lia|done].
    + done.
Qed.

Lemma mutations_no_save evs : forall st,
  Forall (fun ev => is_mutation ev = true) evs ->
  count is_updatePost (trace (run_events st evs)) = count is_updatePost (trace st)
  /\ post (run_events st evs) = post st.
Proof.
  induction evs as [|ev evs IH]; intros st Hm; [done|].
  inversion Hm as [|? ? Hev Hevs]; subst. simpl.
  destruct (IH (step st ev) Hevs) as [-> ->]. now apply mutation_no_save.
Qed.

(** C5.  After any sequence of edits to the draft, no persistence call has
    been issued; when the debounce timer fires and the four fields of the
    draft equal those of the baseline, none is issued either; when a field
    differs, exactly one call is issued, carrying the current draft. *)
Theorem autosave_after_debounce (st : State) (evs : list Event) :
  Forall (fun ev => is_mutation ev = true) evs ->
  let st1 := run_events st evs in
  let st2 := step st1 DebounceElapsed in
  count is_updatePost (trace st1) = count is_updatePost (trace st)
  /\ post st1 = post st
  /\ (same_fields (data st1) (post st) -> trace st2 = trace st1)
  /\ (~ same_fields (data st1) (post st) -> debouncePending st1 = true ->
      trace st2 = trace st1 ++ [UpdatePost (data st1)]).
Proof.
  intros Hm. cbv zeta. destruct (mutations_no_save evs st Hm) as [Hc Hp].
  split; [exact Hc|]. split; [exact Hp|]. rewrite <- Hp.
  set (st1 := run_events st evs). simpl. unfold autosave_effect. simpl. split.
  - intros Hsame. apply unchanged_spec in Hsame. rewrite Hsame.
    now destruct (debouncePending st1).
  - intros Hdiff ->. rewrite <- unchanged_spec in Hdiff.
    now destruct (unchanged (data st1) (post st1)).
Qed.

Lemma autosave_after_debounce_witness :
  trace (step (run_events sample_session [TitleChange "Other"]) DebounceElapsed)
  = [UpdatePost (data (run_events sample_session [TitleChange "Other"]))]
  /\ trace (step (run_events sample_session
                    [TitleChange "Other"; TitleChange "Title";
                     SlidesAction "add" 0 "D"; SlidesAction "delete" 3 ""])
                 DebounceElapsed) = [].
Proof.
  split.
  - destruct (autosave_after_debounce sample_session [TitleChange "Other"])
      as (_ & _ & _ & H).
    + repeat constructor.
    + apply H; [|reflexivity]. vm_compute. intros (H1 & _). discriminate H1.
  - destruct (autosave_after_debounce sample_session
                [TitleChange "Other"; TitleChange "Title";
                 SlidesAction "add" 0 "D"; SlidesAction "delete" 3 ""])
      as (_ & _ & H & _).
    + repeat constructor.
    + apply H. vm_compute. repeat split.
Defined.

(** C7.  In a running session the save listener is registered and holds the
    current draft; pressing meta+S suppresses the default action and issues
    a persistence call with that draft at once, whatever the state of the
    debounce timer, which it leaves as it is; after teardown the listener is
    gone and the key press does nothing. *)
Theorem save_shortcut (st : State) (e : KeyEvent) :
  reachable st -> metaKey e = true -> key e = "s" ->
  saveListener st = Some (data st)
  /\ trace (step st (KeyDown e)) = trace st ++ [PreventDefault; UpdatePost (data st)]
  /\ debouncePending (step st (KeyDown e)) = debouncePending st
  /\ saveListener (unmount st) = None
  /\ dispatch_keydown (unmount st) e = unmount st.
Proof.
  intros Hr Hmeta Hkey. destruct (reachable_invariant st Hr) as [_ Hsave Hcancel _ _].
  split; [exact Hsave|].
  assert (Hd : dispatch_keydown st e
               = call (call st PreventDefault) (UpdatePost (data st))).
  { unfold dispatch_keydown, save_onKeyDown, cancel_onKeyDown.
    rewrite Hsave, Hcancel, Hmeta, Hkey. simpl. now destruct (isLoading st). }
  simpl. rewrite Hd. simpl. rewrite <- List.app_assoc. repeat split.
Qed.

Lemma save_shortcut_witness :
  trace (step (step sample_session (TitleChange "Other")) (KeyDown save_key))
  = [PreventDefault;
     UpdatePost (data (step sample_session (TitleChange "Other")))].
Proof.
  destruct (save_shortcut (step sample_session (TitleChange "Other")) save_key)
    as (_ & H & _).
  - apply reachable_step, reachable_mount.
  - reflexivity.
  - reflexivity.
  - exact H.
Defined.

(** ** Hydration *)

Ltac unfold_handlers :=
  unfold step, render, cancel_effect, save_effect, slides_effect,
    hydrate_effect, autosave_effect, insert_effect, onUpdate, onFinish,
    onError, dispatch_keydown, save_onKeyDown, cancel_onKeyDown,
    mousedownHandler, updateSlides, alloc, mutate, command, run in *.

Ltac count_calls :=
  repeat case_match; simpl in *; rewrite ?count_app; unfold count; simpl;
  try (split; [congruence | lia]).

Lemma hydrated_step st ev :
  hydrated st = true ->
  hydrated (step st ev) = true
  /\ count is_setContent (trace (step st ev)) = count is_setContent (trace st).
Proof.
  intros Hh. destruct ev; unfold_handlers; simpl; rewrite ?Hh; count_calls.
  all: rewrite Hh, andb_false_r in *; discriminate.
Qed.

Lemma hydrated_run evs : forall st,
  hydrated st = true ->
  hydrated (run_events st evs) = true
  /\ count is_setContent (trace (run_events st evs))
     = count is_setContent (trace st).
Proof.
  induction evs as [|ev evs IH]; intros st Hh; [done|]. simpl.
  destruct (hydrated_step st ev Hh) as [Hh' <-]. now apply IH.
Qed.

Lemma early_step st ev :
  is_early ev = true -> editor st = None ->
  editor (step st ev) = None
  /\ hydrated (step st ev) = hydrated st
  /\ post (step st ev) = post st
  /\ count is_setContent (trace (step st ev)) = count is_setContent (trace st).
Proof.
  intros Hev He. destruct ev; try discriminate; unfold_handlers; simpl;
    rewrite ?He; repeat case_match; simpl in *; rewrite ?count_app;
    unfold count; simpl; repeat split; try congruence; try lia.
Qed.

Lemma early_run evs : forall st,
  Forall (fun ev => is_early ev = true) evs -> editor st = None ->
  editor (run_events st evs) = None
  /\ hydrated (run_events st evs) = hydrated st
  /\ post (run_events st evs) = post st
  /\ count is_setContent (trace (run_events st evs))
     = count is_setContent (trace st).
Proof.
  induction evs as [|ev evs IH]; intros st Hev He; [done|].
  inversion Hev as [|? ? H1 H2]; subst. simpl.
  destruct (early_step st ev H1 He) as (He' & <- & <- & <-). now apply IH.
Qed.

Lemma reachable_run evs : forall st, reachable st -> reachable (run_events st evs).
Proof.
  induction evs as [|ev evs IH]; intros st Hr; [done|].
  simpl. apply IH. now constructor.
Qed.

Lemma slice_same s : Str.slice s (Str.len s) = "".
Proof. rewrite <- (str_app_nil_r s) at 1. apply slice_app. Qed.

(** C8.  When the persisted content is non-empty, no content is set before
    the editor exists; when the editor is created the document is set to the
    persisted content, once; and whatever happens afterwards, a change of
    the post prop included, the content is never set again. *)
Theorem hydrated_once (p : Post.t) (parsed : list slot) (c : string)
    (ed : Editor) (early later : list Event) :
  Post.content p = Some c -> c <> "" ->
  Forall (fun ev => is_early ev = true) early ->
  let st0 := run_events (mount p parsed) early in
  let st1 := step st0 (EditorReady ed) in
  let st2 := run_events st1 later in
  count is_setContent (trace st0) = 0%nat
  /\ editor st1 = Some (Doc.setContent ed c)
  /\ trace st1 = trace st0 ++ [Cmd (InsertContent ""); Cmd (SetContent c)]
  /\ hydrated st2 = true
  /\ count is_setContent (trace st2) = 1%nat.
Proof.
  intros Hc Hne Hearly. cbv zeta.
  assert (Hm : editor (mount p parsed) = None) by now rewrite mount_eq.
  destruct (early_run early _ Hearly Hm) as (He & Hh & Hp & Hcount).
  set (st0 := run_events (mount p parsed) early) in *.
  assert (Hinv : prev st0 = completion st0).
  { apply inv_prev, reachable_invariant, reachable_run, reachable_mount. }
  rewrite mount_eq in Hh, Hp, Hcount. simpl in Hh, Hp, Hcount.
  assert (Hst1 : step st0 (EditorReady ed)
    = render (setHydrated
        (call (set_editor
                 (call (set_editor (set_prev (set_editor st0 (Some ed)) (completion st0))
                                   (Some ed))
                       (Cmd (InsertContent "")))
                 (Some (Doc.setContent ed c)))
              (Cmd (SetContent c))) true)).
  { unfold step. rewrite He. unfold insert_effect, command. simpl.
    rewrite Hinv, slice_same. unfold hydrate_effect. simpl.
    rewrite Hp, Hc, Hh. simpl.
    destruct (String.eqb_spec c ""); [contradiction|]. reflexivity. }
  split; [exact Hcount|]. rewrite Hst1. split; [reflexivity|].
  split; [simpl; now rewrite <- List.app_assoc|].
  destruct (hydrated_run later
              (render (setHydrated
        (call (set_editor
                 (call (set_editor (set_prev (set_editor st0 (Some ed)) (completion st0))
                                   (Some ed))
                       (Cmd (InsertContent "")))
                 (Some (Doc.setContent ed c)))
              (Cmd (SetContent c))) true))) as [-> ->]; [reflexivity|].
  split; [reflexivity|]. simpl. rewrite !count_app, Hcount. reflexivity.
Qed.

Lemma hydrated_once_witness :
  let st1 := step (run_events sample_session [TitleChange "T"])
                  (EditorReady Doc.empty) in
  let st2 := run_events st1
               [PostProp (Post.with_content (Some "Changed") sample_post);
                DocUpdate {| doc := "Hello!"; sel_from := 6; sel_to := 6 |};
                PostProp (Post.with_content (Some "Again") sample_post)] in
  editor st1 = Some {| doc := "Hello"; sel_from := 5; sel_to := 5 |}
  /\ count is_setContent (trace st2) = 1%nat
  /\ editor st2 = Some {| doc := "Hello!"; sel_from := 6; sel_to := 6 |}.
Proof.
  destruct (hydrated_once sample_post [Str "A"; Str "B"; Str "C"] "Hello"
              Doc.empty [TitleChange "T"]
              [PostProp (Post.with_content (Some "Changed") sample_post);
               DocUpdate {| doc := "Hello!"; sel_from := 6; sel_to := 6 |};
               PostProp (Post.with_content (Some "Again") sample_post)])
    as (_ & H1 & _ & _ & H2).
  - reflexivity.
  - discriminate.
  - repeat constructor.
  - cbv zeta. split; [exact H1|]. split; [exact H2|]. reflexivity.
Defined.

(** ** The document engine *)

Section DocFacts.

Variables before after : string.

Lemma clamp_app (s t : string) :
  Doc.clamp (s +:+ t) (Str.len s) = String.length s.
Proof. unfold Doc.clamp. rewrite len_app. unfold Str.len. lia. Qed.

Lemma insert_at_cursor (value : string) :
  Doc.insertContent (at_cursor before after) value
  = at_cursor (before +:+ value) after.
Proof.
  unfold Doc.insertContent, at_cursor. simpl.
  destruct (String.eqb_spec value "") as [->|_].
  - now rewrite str_app_nil_r.
  - rewrite clamp_app, str_take_app, str_drop_app, len_app.
    unfold Str.len. f_equal. now rewrite str_app_assoc.
Qed.



End DocFacts.

(** ** Streaming insertion *)

Lemma last_cons (c d : string) (cs : list string) :
  List.last (c :: cs) d = List.last cs c.
Proof.
  revert c d. induction cs as [|c' cs IH]; intros c d; [reflexivity|].
  change (List.last (c :: c' :: cs) d) with (List.last (c' :: cs) d).
  now rewrite (IH c' d), (IH c' c).
Qed.

(** One render with values of the hook that differ from the last ones. *)
Lemma hook_step st ed c l :
  editor st = Some ed ->
  String.eqb c (completion st) && Bool.eqb l (isLoading st) = false ->
  let diff := Str.slice c (Str.len (prev st)) in
  step st (Hook c l)
  = render (call (set_editor (set_prev (set_completion st c l) c)
                             (Some (Doc.insertContent ed diff)))
                 (Cmd (InsertContent diff))).
Proof.
  intros He Hg. unfold step. rewrite Hg.
  unfold insert_effect, command. simpl. now rewrite He.
Qed.

Lemma hook_observed st before after c l :
  prev st = completion st ->
  editor st = Some (at_cursor before after) ->
  Str.grows (prev st) c ->
  let st' := step st (Hook c l) in
  exists ins,
    trace st' = trace st ++ insertions ins
    /\ prev st +:+ Str.concat ins = c
    /\ editor st' = Some (at_cursor (before +:+ Str.concat ins) after)
    /\ prev st' = c
    /\ completion st' = c
    /\ isLoading st' = l.
Proof.
  intros Hinv He Hgrow. cbv zeta.
  destruct (String.eqb c (completion st) && Bool.eqb l (isLoading st)) eqn:Hg.
  - (* the same values again: no render *)
    apply andb_true_iff in Hg as [Hc Hl].
    apply String.eqb_eq in Hc. apply Bool.eqb_prop in Hl.
    subst c l. exists []. unfold step.
    rewrite String.eqb_refl, Bool.eqb_reflx. simpl.
    rewrite List.app_nil_r, !str_app_nil_r. repeat split; congruence.
  - rewrite (hook_step st _ c l He Hg). cbv zeta.
    destruct Hgrow as [t Ht]. rewrite Ht, slice_app, insert_at_cursor. exists [t]. simpl.
    rewrite str_app_nil_r. repeat split.
Qed.

Lemma stream_run cs : forall st before after,
  prev st = completion st ->
  editor st = Some (at_cursor before after) ->
  growing (prev st) cs ->
  let st' := run_events st (stream cs) in
  exists ins,
    trace st' = trace st ++ insertions ins
    /\ prev st +:+ Str.concat ins = List.last cs (prev st)
    /\ editor st' = Some (at_cursor (before +:+ Str.concat ins) after)
    /\ prev st' = List.last cs (prev st)
    /\ completion st' = List.last cs (prev st)
    /\ (isLoading st = true \/ cs <> [] -> isLoading st' = true).
Proof.
  induction cs as [|c cs IH]; intros st before after Hinv He Hg; cbv zeta.
  - exists []. simpl. rewrite List.app_nil_r, !str_app_nil_r. repeat split; auto.
    intros [H|H]; [exact H | contradiction].
  - destruct Hg as [Hc Hg]. rewrite last_cons.
    destruct (hook_observed st before after c true Hinv He Hc)
      as (ins1 & Ht1 & Hc1 & He1 & Hp1 & Hcomp1 & Hl1).
    change (run_events st (stream (c :: cs)))
      with (run_events (step st (Hook c true)) (stream cs)).
    destruct (IH (step st (Hook c true)) (before +:+ Str.concat ins1) after) as
      (ins2 & Ht2 & Hc2 & He2 & Hp2 & Hcomp2 & Hl2).
    + congruence.
    + exact He1.
    + now rewrite Hp1.
    + rewrite Hp1 in *. exists (ins1 ++ ins2).
      assert (Hcat : Str.concat (ins1 ++ ins2) = Str.concat ins1 +:+ Str.concat ins2).
      { clear. induction ins1 as [|v vs IHv]; [reflexivity|].
        simpl. now rewrite IHv, str_app_assoc. }
      rewrite Hcat. unfold insertions in *. rewrite map_app.
      rewrite Ht2, Ht1, <- List.app_assoc, <- !str_app_assoc, Hc1, Hc2.
      repeat split; auto.
Qed.

(** C1.  At every render in which the hook reports new values, the text
    passed to the document is the response sliced from the length of the
    response seen before; over a stream that starts from the empty response
    and grows chunk by chunk, only insertions are issued, their texts put
    end to end are the final response, and the document is the one before
    the stream with the final response at the cursor. *)
Theorem stream_inserts_suffixes :
  (forall (st : State) (ed : Editor) (c : string) (l : bool),
      editor st = Some ed ->
      String.eqb c (completion st) && Bool.eqb l (isLoading st) = false ->
      trace (step st (Hook c l))
      = trace st ++ [Cmd (InsertContent (Str.slice c (Str.len (prev st))))])
  /\ (forall (st : State) (before after : string) (cs : list string),
      reachable st ->
      completion st = "" ->
      editor st = Some (at_cursor before after) ->
      growing "" cs ->
      let st' := run_events st (stream cs) in
      exists ins,
        trace st' = trace st ++ insertions ins
        /\ Str.concat ins = List.last cs ""
        /\ editor st' = Some (at_cursor (before +:+ List.last cs "") after)).
Proof.
  split.
  - intros st ed c l Hed Hneq. now rewrite (hook_step st ed c l Hed Hneq).
  - intros st before after cs Hr Hc He Hg. cbv zeta.
    assert (Hp : prev st = "").
    { rewrite <- Hc. now apply inv_prev, reachable_invariant. }
    destruct (stream_run cs st before after) as (ins & Ht & Hcat & Hed & _).
    + congruence.
    + exact He.
    + now rewrite Hp.
    + rewrite Hp in Hcat. rewrite str_app_nil_l in Hcat.
      exists ins. rewrite Ht, Hed, Hcat. repeat split.
Qed.

Lemma stream_inserts_suffixes_witness :
  let st := step sample_session (EditorReady Doc.empty) in
  editor (run_events st (stream ["He"; "Hey"; "Hey you"]))
  = Some (at_cursor ("Hello" +:+ "Hey you") "")
  /\ trace (step st (Hook "He" true))
     = trace st ++ [Cmd (InsertContent "He")].
Proof.
  destruct stream_inserts_suffixes as (Hstep & Hstream). cbv zeta. split.
  - destruct (Hstream (step sample_session (EditorReady Doc.empty))
                "Hello" "" ["He"; "Hey"; "Hey you"]) as (ins & _ & _ & H).
    + apply reachable_step, reachable_mount.
    + reflexivity.
    + reflexivity.
    + simpl. repeat split; [apply grows_nil | now exists "y" | now exists " you"].
    + exact H.
  - apply (Hstep (step sample_session (EditorReady Doc.empty))
                 {| doc := "Hello"; sel_from := 5; sel_to := 5 |} "He" true);
      reflexivity.
Defined.

(** ** The diff cursor *)

Lemma prev_kept st ev :
  reachable st -> is_hook ev = false -> prev (step st ev) = prev st.
Proof.
  intros Hr Hev. pose proof (inv_prev _ (reachable_invariant st Hr)) as Hinv.
  destruct ev; try discriminate; unfold_handlers; simpl;
    repeat case_match; simpl; congruence.
Qed.

Lemma prev_kept_run evs : forall st,
  reachable st -> Forall (fun ev => is_hook ev = false) evs ->
  prev (run_events st evs) = prev st.
Proof.
  induction evs as [|ev evs IH]; intros st Hr Hevs; [reflexivity|].
  inversion Hevs as [|? ? H1 H2]; subst. simpl.
  rewrite IH by (try constructor; assumption). now apply prev_kept.
Qed.

(** C10.  Every render with new values of the hook sets the diff cursor to
    the response it reports; no other event changes the cursor, so the end
    of a session, an error and a cancellation leave it as it is; hence the
    first insertion after any such events is the new response sliced from
    the length of the response seen last, whichever session reported it. *)
Theorem diff_cursor_never_reset :
  (forall (st : State) (c : string) (l : bool),
      String.eqb c (completion st) && Bool.eqb l (isLoading st) = false ->
      prev (step st (Hook c l)) = c)
  /\ (forall (st : State) (ev : Event),
      reachable st -> is_hook ev = false -> prev (step st ev) = prev st)
  /\ (forall (st : State) (evs : list Event) (ed : Editor) (c : string) (l : bool),
      reachable st ->
      Forall (fun ev => is_hook ev = false) evs ->
      let st1 := run_events st evs in
      editor st1 = Some ed ->
      String.eqb c (completion st1) && Bool.eqb l (isLoading st1) = false ->
      trace (step st1 (Hook c l))
      = trace st1 ++ [Cmd (InsertContent (Str.slice c (Str.len (prev st))))]).
Proof.
  split; [|split].
  - intros st c l Hneq. unfold step. rewrite Hneq.
    unfold insert_effect, command. simpl. now destruct (editor st).
  - apply prev_kept.
  - intros st evs ed c l Hr Hevs st1 Hed Hneq.
    rewrite (hook_step st1 ed c l Hed Hneq). simpl.
    unfold st1. now rewrite prev_kept_run.
Qed.

Lemma diff_cursor_never_reset_witness :
  prev finished_session = "orld"
  /\ prev (step finished_session (Failure "offline")) = "orld"
  /\ trace (step (run_events finished_session
                     [KeyDown escape_key;
                      DocUpdate (at_cursor "Hello world. ++" "")])
                 (Hook "Hi there" true))
     = trace (run_events finished_session
                [KeyDown escape_key;
                 DocUpdate (at_cursor "Hello world. ++" "")])
       ++ [Cmd (InsertContent "here")].
Proof.
  destruct diff_cursor_never_reset as (Hobs & Hkeep & Hnext).
  assert (Hr : reachable finished_session)
    by apply reachable_run, reachable_mount.
  split; [|split].
  - vm_compute. reflexivity.
  - rewrite (Hkeep finished_session (Failure "offline") Hr eq_refl).
    vm_compute. reflexivity.
  - assert (H := Hnext finished_session
             [KeyDown escape_key; DocUpdate (at_cursor "Hello world. ++" "")]
             (at_cursor "Hello world. " "") "Hi there" true Hr).
    cbv zeta in H. rewrite H.
    + vm_compute. reflexivity.
    + repeat constructor.
    + vm_compute. reflexivity.
    + vm_compute. reflexivity.
Defined.

(** ** The completion marker *)

Lemma str_drop_drop (n m : nat) (s : string) :
  Str.drop n (Str.drop m s) = Str.drop (m + n) s.
Proof.
  revert s. induction m as [|m IH]; intros s; [reflexivity|].
  destruct s as [|c s]; simpl; [now destruct n | apply IH].
Qed.

(** Two characters read before a position lie inside the document. *)
Lemma text_between_two (ed : Editor) (from : Z) (v : string) :
  Doc.textBetween ed (from - 2) from = v ->
  String.length v = 2%nat ->
  2 <= from <= Str.len (doc ed)
  /\ doc ed = Str.take (Z.to_nat (from - 2)) (doc ed) +:+ v
              +:+ Str.drop (Z.to_nat from) (doc ed)
  /\ Doc.clamp (doc ed) (from - 2) = Z.to_nat (from - 2)
  /\ Doc.clamp (doc ed) from = Z.to_nat from.
Proof.
  unfold Doc.textBetween. intros Hv Hlen.
  assert (Hl := f_equal String.length Hv).
  rewrite str_length_take, str_length_drop, Hlen in Hl.
  assert (Hrange : 2 <= from <= Str.len (doc ed)).
  { unfold Doc.clamp, Str.len in *. lia. }
  assert (Ha : Doc.clamp (doc ed) (from - 2) = Z.to_nat (from - 2))
    by (unfold Doc.clamp; lia).
  assert (Hb : Doc.clamp (doc ed) from = Z.to_nat from)
    by (unfold Doc.clamp; lia).
  repeat split; try tauto.
  rewrite Ha, Hb in Hv. rewrite <- Hv at 1.
  replace (Z.to_nat from) with (Z.to_nat (from - 2) + (Z.to_nat from - Z.to_nat (from - 2)))%nat
    at 2 by lia.
  rewrite <- str_drop_drop. now rewrite !str_take_drop.
Qed.

Lemma str_take_app_le (n : nat) (p x : string) :
  (n <= String.length p)%nat -> Str.take n (p +:+ x) = Str.take n p.
Proof.
  revert p. induction n as [|n IH]; intros [|c p] H; simpl in *;
    try reflexivity; try lia.
  rewrite ?str_app_cons. simpl. rewrite IH by lia. reflexivity.
Qed.

Lemma str_drop_app_le (n : nat) (p x : string) :
  (n <= String.length p)%nat -> Str.drop n (p +:+ x) = Str.drop n p +:+ x.
Proof.
  revert p. induction n as [|n IH]; intros [|c p] H; simpl in *;
    try reflexivity; try lia.
  rewrite ?str_app_cons. simpl. apply IH. lia.
Qed.

(** The text read up to a position depends only on the document up to it. *)
Lemma text_between_prefix (e1 e2 : Editor) (p x y : string) (from to : Z) :
  doc e1 = p +:+ x -> doc e2 = p +:+ y -> to <= Str.len p ->
  Doc.textBetween e1 from to = Doc.textBetween e2 from to.
Proof.
  intros H1 H2 Hto.
  assert (H : forall e z, doc e = p +:+ z ->
            Doc.textBetween e from to
            = Str.take (Z.to_nat (Z.max 0 to) - Z.to_nat (Z.max 0 (Z.min from (Str.len p))))
                (Str.drop (Z.to_nat (Z.max 0 (Z.min from (Str.len p)))) p)).
  { intros e z He. unfold Doc.textBetween, Doc.clamp. rewrite He, len_app.
    pose proof (len_nonneg z). pose proof (len_nonneg p).
    destruct (Z.le_gt_cases from to) as [Hft|Hft].
    - replace (Z.max 0 (Z.min from (Str.len p + Str.len z)))
        with (Z.max 0 (Z.min from (Str.len p))) by lia.
      replace (Z.max 0 (Z.min to (Str.len p + Str.len z)))
        with (Z.max 0 to) by lia.
      rewrite str_drop_app_le by (unfold Str.len; lia).
      apply str_take_app_le. rewrite str_length_drop. unfold Str.len in *. lia.
    - replace (Z.to_nat (Z.max 0 (Z.min to (Str.len p + Str.len z)))
               - Z.to_nat (Z.max 0 (Z.min from (Str.len p + Str.len z))))%nat
        with 0%nat by lia.
      replace (Z.to_nat (Z.max 0 to)
               - Z.to_nat (Z.max 0 (Z.min from (Str.len p))))%nat
        with 0%nat by lia.
      reflexivity. }
  now rewrite (H e1 x H1), (H e2 y H2).
Qed.

(** A deletion that changes the document shortens it. *)
Lemma delete_shorter (ed : Editor) (from to : Z) :
  doc (Doc.deleteRange ed from to) <> doc ed ->
  (String.length (doc (Doc.deleteRange ed from to)) < String.length (doc ed))%nat.
Proof.
  unfold Doc.deleteRange.
  destruct (Nat.ltb_spec (Doc.clamp (doc ed) from) (Doc.clamp (doc ed) to))
    as [Hlt|Hge]; [|congruence].
  intros _. simpl. rewrite str_length_app, str_length_take, str_length_drop.
  unfold Doc.clamp, Str.len in *. lia.
Qed.

(** The bound on the nesting is never reached: any two bounds that are at
    least the length of the document give the same run. *)
Lemma onUpdate_nested_bound (n : nat) : forall (m : nat) (ed : Editor) (st : State),
  (String.length (doc ed) <= n)%nat -> (String.length (doc ed) <= m)%nat ->
  onUpdate_nested n ed st = onUpdate_nested m ed st.
Proof.
  induction n as [|n IH]; intros m ed st Hn Hm.
  - (* an empty document holds no marker *)
    assert (He : Doc.deleteRange ed (sel_from ed - 2) (sel_from ed) = ed).
    { unfold Doc.deleteRange, Doc.clamp, Str.len.
      destruct (Nat.ltb_spec
                  (Z.to_nat (Z.max 0 (Z.min (sel_from ed - 2)
                                         (Z.of_nat (String.length (doc ed))))))
                  (Z.to_nat (Z.max 0 (Z.min (sel_from ed)
                                         (Z.of_nat (String.length (doc ed)))))));
        [lia | reflexivity]. }
    destruct m; simpl; rewrite He, String.eqb_refl; reflexivity.
  - destruct m as [|m].
    + symmetry.
      assert (He : Doc.deleteRange ed (sel_from ed - 2) (sel_from ed) = ed).
      { unfold Doc.deleteRange, Doc.clamp, Str.len.
        destruct (Nat.ltb_spec
                    (Z.to_nat (Z.max 0 (Z.min (sel_from ed - 2)
                                           (Z.of_nat (String.length (doc ed))))))
                    (Z.to_nat (Z.max 0 (Z.min (sel_from ed)
                                           (Z.of_nat (String.length (doc ed)))))));
          [lia | reflexivity]. }
      simpl; rewrite He, String.eqb_refl; reflexivity.
    + simpl.
      destruct (String.eqb_spec
                  (doc (Doc.deleteRange ed (sel_from ed - 2) (sel_from ed)))
                  (doc ed)) as [Heq|Hneq]; [reflexivity|].
      pose proof (delete_shorter ed _ _ Hneq) as Hlt.
      rewrite (IH m _ _) by lia. reflexivity.
Qed.

(** Outside the trigger the callback only sets the content of the draft. *)
Lemma onUpdate_nested_else (n : nat) (ed : Editor) (st : State) :
  String.eqb (Doc.textBetween ed (sel_from ed - 2) (sel_from ed)) "++"
    && negb (isLoading st) = false ->
  onUpdate_nested n ed st
  = setData st (Post.with_content (Some (Doc.getMarkdown ed)) (data st)).
Proof. intros H. destruct n; simpl; now rewrite H. Qed.

(** C2, as amended.  On a document update whose two characters before the
    cursor are "++": when no completion is active and the two characters
    before the marker are not the marker again, those two characters are
    deleted and nothing else, the update event of the deletion sets the
    content of the draft to the document without the marker, and one
    completion is requested with a prompt made of the current title, the
    current description and the text of the document after the deletion;
    when a completion is active, nothing is deleted and nothing is
    requested, and the content of the draft is set to the serialized
    document, as on any other update. *)
Theorem trigger_marker (st : State) (ed : Editor) :
  is_Some (editor st) ->
  Doc.textBetween ed (sel_from ed - 2) (sel_from ed) = "++" ->
  let st' := document_update ed st in
  let from := sel_from ed in
  let before := Str.take (Z.to_nat (from - 2)) (doc ed) in
  let after := Str.drop (Z.to_nat from) (doc ed) in
  doc ed = before +:+ "++" +:+ after
  /\ Str.len before = from - 2
  /\ (isLoading st = false ->
      Doc.textBetween ed (from - 4) (from - 2) <> "++" ->
      (exists to, editor st' = Some {| doc := before +:+ after;
                                       sel_from := from - 2;
                                       sel_to := to |})
      /\ trace st' = trace st
           ++ [Cmd (DeleteRange (from - 2) from);
               Complete (prompt (Post.title (data st))
                                (Post.description (data st))
                                (before +:+ after));
               Track "Autocomplete Shortcut Used"]
      /\ data st' = Post.with_content (Some (before +:+ after)) (data st)
      /\ debouncePending st' = true)
  /\ (isLoading st = true ->
      trace st' = trace st
      /\ editor st' = Some ed
      /\ data st' = Post.with_content (Some (Doc.getMarkdown ed)) (data st)
      /\ debouncePending st' = true).
Proof.
  intros [ed0 He] Htwo. cbv zeta.
  destruct (text_between_two ed (sel_from ed) "++" Htwo eq_refl)
    as (Hrange & Hdoc & Ha & Hb).
  set (before := Str.take (Z.to_nat (sel_from ed - 2)) (doc ed)) in *.
  set (after := Str.drop (Z.to_nat (sel_from ed)) (doc ed)) in *.
  assert (Hlen : Str.len before = sel_from ed - 2).
  { unfold before, Str.len. rewrite str_length_take.
    unfold Str.len in Hrange. lia. }
  split; [exact Hdoc|]. split; [exact Hlen|].
  unfold document_update. rewrite He. split.
  - intros Hl Hnot.
    destruct (String.length (doc ed)) as [|n] eqn:Hn;
      [unfold Str.len in Hrange; lia|].
    assert (Hdel : Doc.deleteRange ed (sel_from ed - 2) (sel_from ed)
      = {| doc := before +:+ after;
           sel_from := sel_from ed - 2;
           sel_to := Doc.map_pos (Z.to_nat (sel_from ed - 2))
                       (Z.to_nat (sel_from ed)) (sel_to ed) |}).
    { unfold Doc.deleteRange. rewrite Ha, Hb.
      destruct (Nat.ltb_spec (Z.to_nat (sel_from ed - 2)) (Z.to_nat (sel_from ed)));
        [|lia].
      f_equal. unfold Doc.map_pos.
      destruct (Z.leb_spec (sel_from ed) (Z.of_nat (Z.to_nat (sel_from ed - 2))));
        [lia|].
      destruct (Z.leb_spec (sel_from ed) (Z.of_nat (Z.to_nat (sel_from ed))));
        lia. }
    set (ed1 := {| doc := before +:+ after;
                   sel_from := sel_from ed - 2;
                   sel_to := Doc.map_pos (Z.to_nat (sel_from ed - 2))
                               (Z.to_nat (sel_from ed)) (sel_to ed) |}) in *.
    assert (Hchanged : String.eqb (doc ed1) (doc ed) = false).
    { apply String.eqb_neq. intros Heq.
      apply (f_equal String.length) in Heq. rewrite Hdoc in Heq.
      unfold ed1 in Heq. simpl in Heq. rewrite !str_length_app in Heq.
      simpl in Heq. lia. }
    (* the nested run: the two characters before the cursor are not "++" *)
    assert (Hnested : String.eqb (Doc.textBetween ed1 (sel_from ed1 - 2) (sel_from ed1)) "++"
                      = false).
    { apply String.eqb_neq. intros Heq. apply Hnot. rewrite <- Heq.
      unfold ed1 at 2 3. cbn [sel_from].
      replace (sel_from ed - 2 - 2) with (sel_from ed - 4) by lia.
      apply (text_between_prefix ed ed1 before ("++" +:+ after) after);
        [exact Hdoc | reflexivity | lia]. }
    cbn [onUpdate_nested]. rewrite Htwo.
    cbn [isLoading set_editor]. rewrite Hl.
    cbn [String.eqb Ascii.eqb Bool.eqb andb negb run]. rewrite Hdel.
    fold ed1. rewrite Hchanged.
    rewrite onUpdate_nested_else
      by (rewrite Hnested; reflexivity).
    simpl. rewrite <- !List.app_assoc. repeat split. eexists. reflexivity.
  - intros Hl.
    rewrite onUpdate_nested_else
      by (cbn [isLoading set_editor]; rewrite Hl; apply andb_false_r).
    simpl. repeat split.
Qed.

Lemma trigger_marker_witness :
  let st := step sample_session (EditorReady Doc.empty) in
  let ed := at_cursor "Hello w++" "!" in
  (trace (document_update ed st)
   = trace st ++ [Cmd (DeleteRange 7 9);
                  Complete (prompt (Some "Title") (Some "About") "Hello w!");
                  Track "Autocomplete Shortcut Used"]
   /\ data (document_update ed st)
      = Post.with_content (Some "Hello w!") (data st))
  /\ data (document_update ed streaming_updated)
     = Post.with_content (Some "Hello w++!") (data streaming_updated).
Proof.
  cbv zeta. split.
  - destruct (trigger_marker (step sample_session (EditorReady Doc.empty))
                (at_cursor "Hello w++" "!")) as (_ & _ & H & _).
    + vm_compute. eauto.
    + vm_compute. reflexivity.
    + destruct H as (_ & Htrace & Hdata & _).
      * vm_compute. reflexivity.
      * vm_compute. congruence.
      * split; [rewrite Htrace | rewrite Hdata]; vm_compute; reflexivity.
  - destruct (trigger_marker streaming_updated (at_cursor "Hello w++" "!"))
      as (_ & _ & _ & H).
    + vm_compute. eauto.
    + vm_compute. reflexivity.
    + destruct H as (_ & _ & Hdata & _); [vm_compute; reflexivity|].
      rewrite Hdata. vm_compute. reflexivity.
Defined.

(** C2 as stated fails.  With a completion active and the content of the
    draft equal to the document, typing the marker is not without effect:
    the content of the draft changes.  With no completion active and the
    marker typed twice over, not two but four characters are deleted and
    two completions are requested. *)
Lemma active_update_changes_draft :
  let ed := at_cursor "Hello wor++" "" in
  let idle := step sample_session (EditorReady Doc.empty) in
  let twice := at_cursor "a++++" "" in
  (isLoading streaming_updated = true
   /\ Doc.textBetween ed (sel_from ed - 2) (sel_from ed) = "++"
   /\ Post.content (data streaming_updated) = Some "Hello wor"
   /\ Post.content (data (document_update ed streaming_updated))
      = Some "Hello wor++"
   /\ document_update ed streaming_updated <> streaming_updated)
  /\ (isLoading idle = false
      /\ Doc.textBetween twice (sel_from twice - 2) (sel_from twice) = "++"
      /\ editor (document_update twice idle) = Some (at_cursor "a" "")
      /\ count is_complete (trace (document_update twice idle)) = 2%nat).
Proof.
  cbv zeta. split.
  - split; [|split; [|split; [|split]]]; try (vm_compute; reflexivity).
    intros H. apply (f_equal (fun s => Post.content (data s))) in H.
    vm_compute in H. discriminate H.
  - repeat split; vm_compute; reflexivity.
Qed.

(** ** Cancellation with escape *)





(** * Further properties *)

(** ** The end of a stream *)

Lemma select_before_cursor (before after value : string) :
  Doc.setTextSelection (at_cursor (before +:+ value) after)
    (Str.len (before +:+ value) - Str.len value) (Str.len (before +:+ value))
  = {| doc := before +:+ value +:+ after;
       sel_from := Str.len before;
       sel_to := Str.len before + Str.len value |}.
Proof.
  unfold Doc.setTextSelection, at_cursor. simpl.
  rewrite clamp_app.
  replace (Str.len (before +:+ value) - Str.len value) with (Str.len before)
    by (rewrite len_app; lia).
  rewrite str_app_assoc, clamp_app, str_length_app.
  unfold Str.len. f_equal. lia.
Qed.

(** X1.  When a response streamed in from the empty response is finished,
    the finish callback selects exactly the inserted response and changes
    nothing in the document; the render that ends loading keeps the
    selection. *)
Theorem finish_selects_response (st : State) (before after : string)
    (cs : list string) :
  reachable st ->
  completion st = "" ->
  editor st = Some (at_cursor before after) ->
  growing "" cs ->
  let response := List.last cs "" in
  let st1 := run_events st (stream cs) in
  let st2 := step st1 (Finish response) in
  let st3 := step st2 (Hook response false) in
  let selected := {| doc := before +:+ response +:+ after;
                     sel_from := Str.len before;
                     sel_to := Str.len before + Str.len response |} in
  editor st2 = Some selected
  /\ Doc.textBetween selected (sel_from selected) (sel_to selected) = response
  /\ editor st3 = Some selected.
Proof.
  intros Hr Hc He Hg. cbv zeta.
  assert (Hp : prev st = "").
  { rewrite <- Hc. now apply inv_prev, reachable_invariant. }
  destruct (stream_run cs st before after)
    as (ins & _ & Hcat & He1 & Hp1 & Hc1 & _); [congruence | exact He | |].
  { now rewrite Hp. }
  rewrite Hp in Hcat, Hp1, Hc1. rewrite str_app_nil_l in Hcat.
  rewrite Hcat in He1.
  set (st1 := run_events st (stream cs)) in *.
  set (response := List.last cs "") in *.
  assert (H2 : step st1 (Finish response)
    = render (call (set_editor st1
         (Some {| doc := before +:+ response +:+ after;
                  sel_from := Str.len before;
                  sel_to := Str.len before + Str.len response |}))
         (Cmd (SetTextSelection (Str.len (before +:+ response) - Str.len response)
                                (Str.len (before +:+ response)))))).
  { unfold step, onFinish, command. rewrite He1. simpl.
    now rewrite select_before_cursor. }
  rewrite H2. split; [reflexivity|]. split.
  - unfold Doc.textBetween. simpl.
    replace (Str.len before + Str.len response)
      with (Str.len (before +:+ response)) by apply len_app.
    rewrite <- str_app_assoc, clamp_app, str_app_assoc, clamp_app, str_drop_app.
    rewrite str_length_app.
    replace (String.length before + String.length response - String.length before)%nat
      with (String.length response) by lia.
    apply str_take_app.
  - unfold step. simpl. rewrite Hc1, String.eqb_refl. simpl.
    destruct (isLoading st1); simpl; [|reflexivity].
    unfold insert_effect, command. simpl. rewrite Hp1, slice_same. reflexivity.
Qed.

Lemma finish_selects_response_witness :
  let st := step sample_session (EditorReady Doc.empty) in
  editor (step (run_events st (stream [""; "or"; "orld"])) (Finish "orld"))
  = Some {| doc := "Helloorld"; sel_from := 5; sel_to := 9 |}.
Proof.
  cbv zeta.
  destruct (finish_selects_response (step sample_session (EditorReady Doc.empty))
              "Hello" "" [""; "or"; "orld"]) as (H & _).
  - apply reachable_step, reachable_mount.
  - reflexivity.
  - reflexivity.
  - simpl. repeat split; [apply grows_nil | apply grows_nil | now exists "ld"].
  - vm_compute in H. vm_compute. exact H.
Defined.

(** ** Cancelling with the undo key and with the mouse *)

(** X2.  While a response stands before the cursor, meta+z stops the stream
    and puts the marker after the response: unlike escape it deletes
    nothing. *)
Theorem undo_key_keeps_response (st : State) (e : KeyEvent)
    (before after : string) :
  reachable st ->
  key e = "z" -> metaKey e = true ->
  isLoading st = true ->
  editor st = Some (at_cursor (before +:+ completion st) after) ->
  let st' := step st (KeyDown e) in
  trace st' = trace st ++ [Stop; Cmd (InsertContent "++")]
  /\ editor st' = Some (at_cursor (before +:+ completion st +:+ "++") after).
Proof.
  intros Hr Hkey Hmeta Hl He. cbv zeta.
  destruct (reachable_invariant st Hr) as [_ Hsave Hcancel _ _].
  rewrite Hl in Hcancel.
  unfold step, dispatch_keydown. rewrite Hsave, Hcancel.
  unfold save_onKeyDown, cancel_onKeyDown. rewrite Hkey, Hmeta.
  simpl. unfold command. simpl. rewrite He. simpl.
  rewrite insert_at_cursor, str_app_assoc, <- !List.app_assoc.
  repeat split.
Qed.

Lemma undo_key_keeps_response_witness :
  editor (step streaming_session (KeyDown undo_key))
  = Some (at_cursor "Hello wor++" "").
Proof.
  destruct (undo_key_keeps_response streaming_session undo_key "Hello w" "")
    as (_ & H).
  - apply reachable_run, reachable_mount.
  - reflexivity.
  - reflexivity.
  - vm_compute. reflexivity.
  - vm_compute. reflexivity.
  - rewrite H. vm_compute. reflexivity.
Defined.

Lemma issued_eq st ev l :
  trace (step st ev) = trace st ++ l -> issued st ev = l.
Proof. unfold issued. intros ->. apply drop_app_length. Qed.

(** A render of a reachable state registers what is registered already. *)
Lemma render_id st : reachable st -> render st = st.
Proof.
  intros Hr. destruct (reachable_invariant st Hr) as [_ Hsave Hcancel _ _].
  unfold closure_of in Hcancel. destruct st. unfold render, cancel_effect,
    save_effect. simpl in *. now subst.
Qed.

(** X3.  A mouse press while a completion is loading suppresses the default
    action, stops the stream and asks for confirmation; a new completion is
    requested exactly when the user confirms, with a prompt built from the
    current title and description and from the text of the document, or a
    blank when the document is empty; the document and the draft are left
    as they are. *)
Theorem mouse_press_pauses (st : State) (confirmed : bool) :
  reachable st ->
  isLoading st = true ->
  let st' := step st (MouseDown confirmed) in
  trace st' = trace st
       ++ [PreventDefault; StopPropagation; Stop;
           Confirm "AI writing paused. Continue?"]
       ++ (if confirmed
           then [Complete (prompt (Post.title (data st))
                                  (Post.description (data st))
                                  (text_or_blank (editor st)))]
           else [])
  /\ editor st' = editor st
  /\ data st' = data st
  /\ prev st' = prev st.
Proof.
  intros Hr Hl. cbv zeta.
  destruct (reachable_invariant st Hr) as [_ _ Hcancel _ _].
  rewrite Hl in Hcancel. unfold step. rewrite Hcancel.
  unfold mousedownHandler, text_or_blank. simpl.
  destruct confirmed; simpl; rewrite <- !List.app_assoc; repeat split.
Qed.

Lemma mouse_press_pauses_witness :
  trace (step streaming_session (MouseDown true))
  = trace streaming_session
      ++ [PreventDefault; StopPropagation; Stop;
          Confirm "AI writing paused. Continue?";
          Complete (prompt (Some "Title") (Some "About") "Hello wor")].
Proof.
  destruct (mouse_press_pauses streaming_session true) as (H & _).
  - apply reachable_run, reachable_mount.
  - vm_compute. reflexivity.
  - rewrite H. vm_compute. reflexivity.
Defined.

(** X4.  A key press that is neither meta+s nor, while a completion is
    loading, escape or meta+z changes nothing at all; neither does a mouse
    press while no completion is loading; and after teardown no key press
    reaches the component. *)
Theorem unhandled_input_ignored (st : State) (e : KeyEvent) (confirmed : bool) :
  reachable st ->
  (handled st e = false -> step st (KeyDown e) = st)
  /\ (isLoading st = false -> step st (MouseDown confirmed) = st)
  /\ dispatch_keydown (unmount st) e = unmount st.
Proof.
  intros Hr. destruct (reachable_invariant st Hr) as [_ Hsave Hcancel _ _].
  split; [|split].
  - unfold handled. intros Hh. apply orb_false_iff in Hh as [Hs Hc].
    unfold step, dispatch_keydown, save_onKeyDown, cancel_onKeyDown.
    rewrite Hsave, Hcancel, Hs.
    destruct (isLoading st); simpl in Hc; [rewrite Hc|]; now apply render_id.
  - intros Hl. unfold step. now rewrite Hcancel, Hl.
  - reflexivity.
Qed.

Lemma unhandled_input_ignored_witness :
  step sample_session (KeyDown escape_key) = sample_session
  /\ step sample_session (KeyDown {| key := "S"; metaKey := true |})
     = sample_session
  /\ step sample_session (MouseDown true) = sample_session.
Proof.
  assert (Hr : reachable sample_session) by apply reachable_mount.
  split; [|split].
  - apply (unhandled_input_ignored sample_session escape_key true Hr).
    vm_compute. reflexivity.
  - apply (unhandled_input_ignored sample_session
             {| key := "S"; metaKey := true |} true Hr).
    vm_compute. reflexivity.
  - apply (unhandled_input_ignored sample_session escape_key true Hr).
    vm_compute. reflexivity.
Defined.

(** ** What a step can issue *)

Ltac trace_of_step :=
  unfold_handlers; simpl; repeat case_match; simpl in *;
  rewrite <- ?List.app_assoc; simpl.

(** The trace only grows. *)
Lemma step_extends st ev : trace (step st ev) = trace st ++ issued st ev.
Proof.
  unfold issued.
  assert (H : exists l, trace (step st ev) = trace st ++ l).
  { destruct ev; trace_of_step;
      solve [ eexists; reflexivity
            | exists []; now rewrite List.app_nil_r ]. }
  destruct H as [l ->]. now rewrite drop_app_length.
Qed.

Ltac issued_of_step :=
  unfold issued; trace_of_step;
  rewrite ?drop_app_length, ?drop_all; simpl.

Ltac split_in H :=
  repeat (destruct H as [H|H]; try discriminate H); try contradiction.

(** X5.  A persistence call is issued only when the debounce timer fires,
    on meta+s, or when the post prop changes; it carries the current draft
    in the first two cases and the debounced draft in the third.  Streaming,
    cancelling, errors and edits never save. *)
Theorem persistence_sources (st : State) (ev : Event) (d : Post.t) :
  reachable st ->
  In (UpdatePost d) (issued st ev) ->
  (ev = DebounceElapsed /\ d = data st)
  \/ (exists e, ev = KeyDown e /\ metaKey e = true /\ key e = "s" /\ d = data st)
  \/ (exists p, ev = PostProp p /\ d = debouncedData st).
Proof.
  intros Hr Hin. destruct (reachable_invariant st Hr) as [_ Hsave _ _ _].
  destruct ev as [v|v|a i v|ed|c l|c|m|e|b| |p|ed]; revert Hin;
    try (issued_of_step; intros Hin; split_in Hin; fail).
  - (* key press *)
    unfold issued, step, dispatch_keydown. rewrite Hsave.
    issued_of_step; intros Hin; split_in Hin.
    all: injection Hin as <-; right; left; exists e;
      match goal with
      | H : metaKey _ && _ = true |- _ =>
          apply andb_true_iff in H as [Hm Hk]; apply String.eqb_eq in Hk
      end; auto.
  - (* the debounce timer *)
    issued_of_step; intros Hin; split_in Hin.
    all: injection Hin as <-; left; auto.
  - (* the post prop *)
    issued_of_step; intros Hin; split_in Hin.
    all: injection Hin as <-; right; right; eauto.
Qed.

Lemma persistence_sources_witness :
  let st := step sample_session (TitleChange "Other") in
  (DebounceElapsed = DebounceElapsed /\ data st = data st)
  \/ (exists e, DebounceElapsed = KeyDown e /\ metaKey e = true /\ key e = "s"
                /\ data st = data st)
  \/ (exists p, DebounceElapsed = PostProp p /\ data st = debouncedData st).
Proof.
  apply (persistence_sources (step sample_session (TitleChange "Other"))
           DebounceElapsed).
  - apply reachable_step, reachable_mount.
  - vm_compute. left. reflexivity.
Defined.

(** X7.  The events after which no update event follows leave the draft as
    it is: the end of a response, an error, a mouse press, the debounce
    timer, key presses other than the cancel keys of a loading completion
    and, in particular, a new post prop. *)
Theorem quiet_events_keep_draft (st : State) (ev : Event) :
  reachable st -> quiet st ev = true -> data (step st ev) = data st.
Proof.
  intros Hr Hq. destruct (reachable_invariant st Hr) as [_ Hsave Hcancel _ _].
  destruct ev as [v|v|a i v|ed|c l|c|m|e|b| |p|ed]; try discriminate.
  - unfold step, onFinish, command. now destruct (editor st).
  - unfold step, onError. now destruct (String.eqb _ _).
  - unfold step, dispatch_keydown, save_onKeyDown, cancel_onKeyDown.
    rewrite Hsave, Hcancel. simpl in Hq. apply negb_true_iff in Hq.
    destruct (isLoading st); simpl in Hq; [rewrite Hq|];
      now destruct (metaKey e && String.eqb (key e) "s").
  - unfold step, mousedownHandler. destruct (cancelListener st); [|reflexivity].
    now destruct b.
  - unfold step, autosave_effect. destruct (debouncePending st); [|reflexivity].
    simpl. now destruct (unchanged _ _).
  - unfold step, hydrate_effect, autosave_effect, command. simpl.
    destruct (unchanged _ _); simpl; repeat case_match; reflexivity.
Qed.

Lemma quiet_events_keep_draft_witness :
  data (step sample_session
          (PostProp (Post.with_title (Some "Elsewhere") sample_post)))
  = data sample_session.
Proof.
  apply (quiet_events_keep_draft sample_session
           (PostProp (Post.with_title (Some "Elsewhere") sample_post))).
  - apply reachable_mount.
  - reflexivity.
Defined.

(** ** The post prop *)

Lemma hydrate_effect_hydrated st : hydrated st = true -> hydrate_effect st = st.
Proof.
  intros Hh. unfold hydrate_effect.
  destruct (editor st); [|reflexivity].
  destruct (Post.content (post st)); [|reflexivity].
  now rewrite Hh, andb_false_r.
Qed.

(** X8.  When the parent passes another post to a hydrated session, the
    autosave effect runs against it at once: if the debounced draft differs
    from the new post in one of the four fields, the debounced draft is
    written back without waiting for the timer; the draft and the document
    stay as they are. *)
Theorem post_prop_change_saves (st : State) (p : Post.t) :
  hydrated st = true ->
  let st' := step st (PostProp p) in
  trace st' = trace st
       ++ (if unchanged (debouncedData st) p then []
           else [UpdatePost (debouncedData st)])
  /\ post st' = p
  /\ data st' = data st
  /\ editor st' = editor st.
Proof.
  intros Hh. cbv zeta. unfold step.
  rewrite hydrate_effect_hydrated
    by (unfold autosave_effect; now destruct (unchanged _ _)).
  unfold autosave_effect. simpl.
  destruct (unchanged (debouncedData st) p); simpl;
    rewrite ?List.app_nil_r; repeat split.
Qed.

Lemma post_prop_change_saves_witness :
  let st := step sample_session (EditorReady Doc.empty) in
  let p := Post.with_title (Some "Elsewhere") sample_post in
  trace (step st (PostProp p)) = trace st ++ [UpdatePost (debouncedData st)].
Proof.
  cbv zeta.
  destruct (post_prop_change_saves (step sample_session (EditorReady Doc.empty))
              (Post.with_title (Some "Elsewhere") sample_post)) as (H & _).
  - vm_compute. reflexivity.
  - rewrite H. vm_compute. reflexivity.
Defined.

Lemma unhydrated_step st ev :
  is_post_prop ev = false ->
  Str.truthy (Post.content (post st)) = false ->
  hydrated st = false ->
  hydrated (step st ev) = false /\ post (step st ev) = post st.
Proof.
  intros Hev Hc Hh.
  destruct ev; try discriminate; unfold_handlers; simpl;
    repeat case_match; simpl in *; try (split; congruence).
  all: match goal with
       | H1 : negb _ && _ = true |- _ => rewrite Hc in H1; discriminate H1
       end.
Qed.

Lemma unhydrated_run evs : forall st,
  Forall (fun ev => is_post_prop ev = false) evs ->
  Str.truthy (Post.content (post st)) = false ->
  hydrated st = false ->
  hydrated (run_events st evs) = false.
Proof.
  induction evs as [|ev evs IH]; intros st Hevs Hc Hh; [exact Hh|].
  inversion Hevs as [|? ? H1 H2]; subst. simpl.
  destruct (unhydrated_step st ev H1 Hc Hh) as [Hh' Hp].
  apply IH; try assumption. now rewrite Hp.
Qed.

(** X9.  A session mounted on a post without content is not hydrated, and
    stays so whatever the user does; the first post prop with content that
    arrives later then replaces the document, edits included. *)
Theorem late_hydration_replaces_document (p0 p : Post.t) (parsed : list slot)
    (evs : list Event) (ed : Editor) (c : string) :
  Str.truthy (Post.content p0) = false ->
  Forall (fun ev => is_post_prop ev = false) evs ->
  Post.content p = Some c -> c <> "" ->
  let st := run_events (mount p0 parsed) evs in
  editor st = Some ed ->
  hydrated st = false
  /\ editor (step st (PostProp p)) = Some (Doc.setContent ed c)
  /\ hydrated (step st (PostProp p)) = true.
Proof.
  intros H0 Hevs Hc Hne st He.
  assert (Hh : hydrated st = false).
  { apply unhydrated_run; try assumption; now rewrite mount_eq. }
  split; [exact Hh|].
  assert (Hne' : String.eqb c "" = false) by now apply String.eqb_neq.
  set (st1 := autosave_effect (set_post st p)).
  assert (H1 : editor st1 = Some ed /\ post st1 = p /\ hydrated st1 = false).
  { unfold st1, autosave_effect. simpl. now destruct (unchanged _ _). }
  destruct H1 as (He1 & Hp1 & Hh1).
  unfold step. fold st1. unfold hydrate_effect, command.
  rewrite He1, Hp1, Hc, Hh1. simpl. rewrite Hne'. simpl.
  split; reflexivity.
Qed.

Lemma late_hydration_replaces_document_witness :
  let st := run_events (mount blank_post [])
              [EditorReady Doc.empty; DocUpdate (at_cursor "My own words" "")] in
  editor st = Some (at_cursor "My own words" "")
  /\ editor (step st (PostProp (Post.with_content (Some "Theirs") blank_post)))
     = Some (at_cursor "Theirs" "").
Proof.
  cbv zeta. split; [vm_compute; reflexivity|].
  destruct (late_hydration_replaces_document blank_post
              (Post.with_content (Some "Theirs") blank_post) []
              [EditorReady Doc.empty; DocUpdate (at_cursor "My own words" "")]
              (at_cursor "My own words" "") "Theirs") as (_ & H & _).
  - reflexivity.
  - repeat constructor.
  - reflexivity.
  - discriminate.
  - vm_compute. reflexivity.
  - rewrite H. vm_compute. reflexivity.
Defined.

(** ** The slides at mount *)

Lemma debounce_trace st :
  debouncePending st = true ->
  trace (step st DebounceElapsed)
  = trace st ++ (if unchanged (data st) (post st) then []
                 else [UpdatePost (data st)]).
Proof.
  intros Hp. unfold step, autosave_effect. rewrite Hp. simpl.
  destruct (unchanged (data st) (post st)); simpl;
    now rewrite ?List.app_nil_r.
Qed.

Lemma unchanged_with_slides (s : option string) (p : Post.t) :
  unchanged (Post.with_slides s p) p = Str.eqb s (Post.slides p).
Proof. unfold unchanged. cbn [Post.title Post.description Post.content
  Post.slides Post.with_slides]. now rewrite !str_eqb_refl. Qed.

(** X10.  The first autosave after mounting, with no edit at all: a post
    whose slides column is null or empty is saved once, with the slides
    field set to the serialization of the empty list; a post whose slides
    column is the serialization of the parsed slides is not saved. *)
Theorem first_autosave (p : Post.t) (parsed : list slot) :
  let st := mount p parsed in
  (Str.truthy (Post.slides p) = false ->
     trace (step st DebounceElapsed)
     = [UpdatePost (Post.with_slides (Some (JSON.stringify [])) p)])
  /\ (Post.slides p = Some (JSON.stringify parsed) ->
     trace (step st DebounceElapsed) = []).
Proof.
  cbv zeta.
  assert (Hm : debouncePending (mount p parsed) = true
               /\ trace (mount p parsed) = []
               /\ post (mount p parsed) = p
               /\ data (mount p parsed)
                  = Post.with_slides
                      (Some (JSON.stringify (initial_slides p parsed))) p).
  { rewrite mount_eq. cbv zeta. cbn [debouncePending trace post data].
    now rewrite stringify_spread. }
  destruct Hm as (Hpend & Htrace & Hpost & Hdata).
  rewrite (debounce_trace _ Hpend), Htrace, Hpost, Hdata, unchanged_with_slides.
  unfold initial_slides. split.
  - intros Hs. rewrite Hs.
    destruct (Post.slides p) as [s|]; [|reflexivity].
    cbn [Str.truthy] in Hs. apply negb_false_iff, String.eqb_eq in Hs.
    now subst s.
  - intros Hs. rewrite Hs.
    assert (Ht : Str.truthy (Some (JSON.stringify parsed)) = true) by reflexivity.
    now rewrite Ht, str_eqb_refl.
Qed.

Lemma first_autosave_witness :
  trace (step (mount blank_post []) DebounceElapsed)
  = [UpdatePost (Post.with_slides (Some "[]") blank_post)]
  /\ trace (step sample_session DebounceElapsed) = [].
Proof.
  split.
  - destruct (first_autosave blank_post []) as (H & _). now apply H.
  - destruct (first_autosave sample_post [Str "A"; Str "B"; Str "C"]) as (_ & H).
    now apply H.
Defined.

(** ** Slide operations in sequence *)

Lemma length_spread (a : list slot) : length (JsArray.spread a) = length a.
Proof. unfold JsArray.spread. apply length_map. Qed.

Lemma set_set (a : list slot) (i : Z) (u v : string) :
  JsArray.set (JsArray.set a i u) i v = JsArray.set a i v.
Proof.
  unfold JsArray.set. destruct (JsArray.is_index i) eqn:Hi; [|reflexivity].
  unfold JsArray.is_index in Hi. apply andb_true_iff in Hi as [H0 _].
  apply Z.leb_le in H0.
  destruct (Nat.ltb_spec (Z.to_nat i) (length a)) as [Hlt|Hge].
  - rewrite length_insert.
    destruct (Nat.ltb_spec (Z.to_nat i) (length a)); [|lia].
    apply list_insert_insert_eq.
  - rewrite !length_app, repeat_length. simpl.
    destruct (Nat.ltb_spec (Z.to_nat i)
                (length a + (Z.to_nat i - length a + 1))); [|lia].
    rewrite insert_app_r_alt by lia.
    rewrite insert_app_r_alt by (rewrite repeat_length; lia).
    rewrite repeat_length.
    replace (Z.to_nat i - length a - (Z.to_nat i - length a))%nat with 0%nat
      by lia.
    reflexivity.
Qed.

(** X11.  Updating a slide twice at the same index, whatever the index,
    gives the slides and the slides field of the draft that the second
    update alone gives. *)
Theorem update_last_wins (st : State) (i : Z) (u v : string) :
  reachable st ->
  let twice := run_events st [SlidesAction "update" i u; SlidesAction "update" i v] in
  let once := step st (SlidesAction "update" i v) in
  current_slides twice = current_slides once
  /\ Post.slides (data twice) = Post.slides (data once).
Proof.
  intros Hr. cbv zeta.
  assert (Hc : current_slides
                 (run_events st [SlidesAction "update" i u; SlidesAction "update" i v])
               = current_slides (step st (SlidesAction "update" i v))).
  { unfold run_events. cbn [fold_left].
    rewrite !step_slides_current, !current_update, step_slides_current,
      current_update. apply set_set. }
  split; [exact Hc|].
  rewrite !(fun s H => inv_slides s (reachable_invariant s H)), Hc;
    [reflexivity | now constructor | now apply reachable_run].
Qed.

Lemma update_last_wins_witness :
  current_slides (run_events sample_session
                    [SlidesAction "update" 4 "X"; SlidesAction "update" 4 "Y"])
  = [Str "A"; Str "B"; Str "C"; Hole; Str "Y"].
Proof.
  destruct (update_last_wins sample_session 4 "X" "Y") as (H & _).
  - apply reachable_mount.
  - rewrite H. vm_compute. reflexivity.
Defined.

(** X12.  Adding a slide and then deleting the slide just added gives back
    the slides there were (an empty slot being read as undefined), and the
    slides field of the draft is again what it was. *)
Theorem add_then_delete (st : State) (v : string) :
  reachable st ->
  let n := Z.of_nat (length (current_slides st)) in
  let st' := run_events st [SlidesAction "add" 0 v; SlidesAction "delete" n ""] in
  current_slides st' = JsArray.spread (current_slides st)
  /\ Post.slides (data st') = Post.slides (data st).
Proof.
  intros Hr. cbv zeta.
  assert (Hc : current_slides
                 (run_events st
                    [SlidesAction "add" 0 v;
                     SlidesAction "delete" (Z.of_nat (length (current_slides st))) ""])
               = JsArray.spread (current_slides st)).
  { unfold run_events. cbn [fold_left].
    rewrite step_slides_current, current_delete, step_slides_current,
      current_add.
    rewrite splice_in_bounds
      by (rewrite length_app, length_spread; simpl; lia).
    rewrite Nat2Z.id, <- (length_spread (current_slides st)).
    rewrite delete_middle. apply List.app_nil_r. }
  split; [exact Hc|].
  rewrite !(fun s H => inv_slides s (reachable_invariant s H)), Hc;
    [now rewrite stringify_spread | assumption | now apply reachable_run].
Qed.

Lemma add_then_delete_witness :
  current_slides (run_events sample_session
                    [SlidesAction "add" 0 ""; SlidesAction "delete" 3 ""])
  = [Str "A"; Str "B"; Str "C"].
Proof.
  destruct (add_then_delete sample_session "") as (H & _).
  - apply reachable_mount.
  - vm_compute in H. vm_compute. exact H.
Defined.

(** ** The serialized slides determine the slides *)

Lemma read_escape_char (c : ascii) (r : string) :
  JSONRead.read_string (JSON.escape_char c +:+ r)
  = JSONRead.cons_read c (JSONRead.read_string r).
Proof.
  destruct c as [[] [] [] [] [] [] [] []]; reflexivity.
Qed.

Lemma read_escape (s t : string) :
  JSONRead.read_string (JSON.escape s +:+ String JSON.quote t) = Some (s, t).
Proof.
  induction s as [|c s IH]; [reflexivity|].
  cbn [JSON.escape]. rewrite str_app_assoc, read_escape_char, IH. reflexivity.
Qed.

Lemma join_cons (s : string) (l : list string) :
  JSON.join (s :: l) = s +:+ join_tail l.
Proof. destruct l; [symmetry; apply str_app_nil_r | reflexivity]. Qed.

Ltac norm_str H :=
  repeat (rewrite str_app_assoc in H || rewrite str_app_cons in H
          || rewrite str_app_nil_l in H).

Lemma join_strings_injective (l1 : list string) : forall (l2 : list string) (t1 t2 : string),
  JSON.join (map JSON.element (map Str l1)) +:+ "]" +:+ t1
  = JSON.join (map JSON.element (map Str l2)) +:+ "]" +:+ t2 ->
  l1 = l2.
Proof.
  induction l1 as [|x l1 IH]; intros [|y l2] t1 t2 H.
  - reflexivity.
  - exfalso. cbn [map] in H. rewrite join_cons in H.
    cbn [JSON.element] in H. unfold JSON.quote_string in H. norm_str H.
    discriminate H.
  - exfalso. cbn [map] in H. rewrite join_cons in H.
    cbn [JSON.element] in H. unfold JSON.quote_string in H. norm_str H.
    discriminate H.
  - cbn [map] in H. rewrite !join_cons in H.
    cbn [JSON.element] in H. unfold JSON.quote_string in H. norm_str H.
    injection H as H.
    apply (f_equal JSONRead.read_string) in H. rewrite !read_escape in H.
    injection H as -> H. f_equal.
    destruct l1 as [|x1 l1], l2 as [|y1 l2]; try reflexivity.
    + exfalso. cbn [map join_tail] in H. norm_str H. discriminate H.
    + exfalso. cbn [map join_tail] in H. norm_str H. discriminate H.
    + cbn [map join_tail] in H. norm_str H. injection H as H.
      apply (IH (y1 :: l2) t1 t2). exact H.
Qed.

Lemma stringify_strings_injective (l l' : list string) :
  JSON.stringify (map Str l) = JSON.stringify (map Str l') -> l = l'.
Proof.
  unfold JSON.stringify. intros Heq. norm_str Heq. injection Heq as Heq.
  apply (join_strings_injective l l' "" ""). exact Heq.
Qed.

(** X13.  The serialization of a list of slides determines the list: two
    sessions whose slides are strings and whose drafts have the same slides
    field have the same slides. *)
Theorem slides_field_determines_slides (st st' : State) (l l' : list string) :
  reachable st -> reachable st' ->
  current_slides st = map Str l ->
  current_slides st' = map Str l' ->
  Post.slides (data st) = Post.slides (data st') ->
  l = l'.
Proof.
  intros Hr Hr' Hl Hl' Heq.
  rewrite (inv_slides _ (reachable_invariant st Hr)) in Heq.
  rewrite (inv_slides _ (reachable_invariant st' Hr')) in Heq.
  rewrite Hl, Hl' in Heq.
  apply stringify_strings_injective. congruence.
Qed.

Lemma slides_field_determines_slides_witness :
  ["A"; "B"; "C"] = ["A"; "B"; "C"].
Proof.
  apply (slides_field_determines_slides sample_session
           (run_events sample_session
              [SlidesAction "add" 0 "D"; SlidesAction "delete" 3 ""])).
  - apply reachable_mount.
  - apply reachable_run, reachable_mount.
  - vm_compute. reflexivity.
  - vm_compute. reflexivity.
  - vm_compute. reflexivity.
Defined.

(** X14.  Slides that differ from the persisted ones are saved: when the
    slides of the session are strings, the slides column of the post is the
    serialization of another list of strings and the debounce timer fires,
    one persistence call with the current draft is issued. *)
Theorem changed_slides_are_saved (st : State) (l l0 : list string) :
  reachable st ->
  debouncePending st = true ->
  current_slides st = map Str l ->
  Post.slides (post st) = Some (JSON.stringify (map Str l0)) ->
  l <> l0 ->
  trace (step st DebounceElapsed) = trace st ++ [UpdatePost (data st)].
Proof.
  intros Hr Hp Hl Hl0 Hne. rewrite (debounce_trace st Hp).
  destruct (unchanged (data st) (post st)) eqn:Hu; [|reflexivity].
  exfalso. apply Hne. apply unchanged_spec in Hu as (_ & _ & _ & Hs).
  rewrite (inv_slides _ (reachable_invariant st Hr)), Hl, Hl0 in Hs.
  apply stringify_strings_injective. congruence.
Qed.

Lemma changed_slides_are_saved_witness :
  let st := step sample_session (SlidesAction "update" 1 "b") in
  trace (step st DebounceElapsed) = [UpdatePost (data st)].
Proof.
  cbv zeta.
  rewrite (changed_slides_are_saved
             (step sample_session (SlidesAction "update" 1 "b"))
             ["A"; "b"; "C"] ["A"; "B"; "C"]).
  - vm_compute. reflexivity.
  - apply reachable_step, reachable_mount.
  - vm_compute. reflexivity.
  - vm_compute. reflexivity.
  - vm_compute. reflexivity.
  - discriminate.
Defined.

(** ** The publish button *)

(** X15.  When a publish request succeeds in the render in which the
    button was pressed, the published flag of the draft is toggled and
    agrees with the value that was sent and with the toast; nothing else of
    the draft changes and no call is issued by the component. *)
Theorem publish_toggles (st : State) :
  let request := publish_onClick st in
  let message := fst (publish_then (data st) st) in
  let st' := snd (publish_then (data st) st) in
  Post.published (data st') = negb (Post.published (data st))
  /\ form_published request = string_of_bool (Post.published (data st'))
  /\ request_id request = Post.id (post st)
  /\ message = (if Post.published (data st')
                then "Successfully published your post."
                else "Successfully unpublished your post.")
  /\ same_fields (data st') (data st)
  /\ trace st' = trace st.
Proof.
  cbv zeta. unfold publish_then, publish_onClick, same_fields. simpl.
  destruct (Post.published (data st)); repeat split.
Qed.

(** X16.  Publishing alone never causes an autosave: the published flag is
    not among the compared fields, so after a successful publish the
    debounce timer issues a persistence call exactly when it would have
    issued one for the draft before. *)
Theorem publish_never_saves (d : Post.t) (st : State) :
  let st' := snd (publish_then d st) in
  unchanged (data st') (post st') = unchanged (data st) (post st)
  /\ (same_fields (data st) (post st) ->
      trace (step st' DebounceElapsed) = trace st).
Proof.
  cbv zeta. unfold publish_then. cbn [snd].
  set (st' := render (setData st _)).
  assert (Hu : unchanged (data st') (post st') = unchanged (data st) (post st))
    by reflexivity.
  split; [exact Hu|]. intros Hs. apply unchanged_spec in Hs.
  rewrite (debounce_trace st') by reflexivity.
  rewrite Hu, Hs. apply List.app_nil_r.
Qed.

Lemma publish_never_saves_witness :
  let st := step sample_session DebounceElapsed in
  trace (step (snd (publish_then (data st) st)) DebounceElapsed) = [].
Proof.
  cbv zeta.
  destruct (publish_never_saves
              (data (step sample_session DebounceElapsed))
              (step sample_session DebounceElapsed)) as (_ & H).
  rewrite H; [vm_compute; reflexivity|].
  vm_compute. repeat split.
Defined.

(** ** A response that does not grow *)

Lemma str_drop_all (n : nat) (s : string) :
  (String.length s <= n)%nat -> Str.drop n s = "".
Proof.
  revert s. induction n as [|n IH]; intros [|c s] H; simpl in *;
    try reflexivity; try lia.
  apply IH. lia.
Qed.

(** X17.  The text to insert is found by length alone: when the hook
    reports a response that is not longer than the one seen before, nothing
    is inserted, even if the two differ, and the new response becomes the
    one seen before. *)
Theorem shorter_response_inserts_nothing (st : State) (ed : Editor)
    (c : string) (l : bool) :
  editor st = Some ed ->
  String.eqb c (completion st) && Bool.eqb l (isLoading st) = false ->
  Str.len c <= Str.len (prev st) ->
  let st' := step st (Hook c l) in
  trace st' = trace st ++ [Cmd (InsertContent "")]
  /\ editor st' = Some ed
  /\ prev st' = c.
Proof.
  intros He Hneq Hlen. cbv zeta. rewrite (hook_step st ed c l He Hneq).
  cbv zeta.
  assert (Hs : Str.slice c (Str.len (prev st)) = "").
  { unfold Str.slice. pose proof (len_nonneg (prev st)).
    destruct (Z.ltb_spec (Str.len (prev st)) 0); [lia|].
    apply str_drop_all. unfold Str.len in *. lia. }
  rewrite Hs. repeat split.
Qed.

Lemma shorter_response_inserts_nothing_witness :
  editor (step streaming_session (Hook "xy" true)) = editor streaming_session
  /\ prev (step streaming_session (Hook "xy" true)) = "xy".
Proof.
  destruct (shorter_response_inserts_nothing streaming_session
              (at_cursor "Hello wor" "") "xy" true) as (_ & H1 & H2).
  - vm_compute. reflexivity.
  - vm_compute. reflexivity.
  - vm_compute. congruence.
  - split; [rewrite H1; vm_compute; reflexivity | exact H2].
Defined.
